(** * Kindle Sender: a shallow embedding of [server/app.py]

    The service fetches an article, packages it as an EPUB file and mails
    the file to a reading device.  This development models the module's
    functions as state-passing computations over an explicit program state
    (the global [article_queue], the files on disk, and the outside world
    reached through the third-party libraries) and proves the properties
    the specification states about them. *)

From Stdlib Require Import String Ascii.
From stdpp Require Import base option list gmap.

Local Open Scope N_scope.
Local Open Scope list_scope.

(** ** Python strings

    A Python 3 [str] is a sequence of Unicode code points. *)

Definition pystr := list N.

(** An ASCII literal of the source, as a [pystr]. *)
Definition py (s : string) : pystr :=
  List.map N_of_ascii (list_ascii_of_string s).

Arguments py : simpl never.

(** The double-quote character, which the source writes inside its
    literals. *)
Definition dq : pystr := [34].

(** Truth value of a string: [bool(s)]. *)
Definition str_truthy (s : pystr) : bool :=
  match s with [] => false | _ :: _ => true end.

(** Truth value of an optional string ([os.getenv] gives [None] when the
    variable is unset): [None] and [''] are both false. *)
Definition opt_truthy (o : option pystr) : bool :=
  match o with None => false | Some s => str_truthy s end.

(** [a or b] on an optional and a plain string. *)
Definition opt_or (o : option pystr) (d : pystr) : pystr :=
  if opt_truthy o then default d o else d.

(** [str.isspace] for one code point: CPython's [_PyUnicode_IsWhitespace]. *)
Definition isspace (c : N) : bool :=
  ((9 <=? c) && (c <=? 13)) || ((28 <=? c) && (c <=? 32))
  || (c =? 133) || (c =? 160) || (c =? 5760)
  || ((8192 <=? c) && (c <=? 8202))
  || (c =? 8232) || (c =? 8233) || (c =? 8239) || (c =? 8287)
  || (c =? 12288).

(** [str.lstrip()], [str.rstrip()] and [str.strip()] without argument. *)
Fixpoint lstrip (s : pystr) : pystr :=
  match s with
  | [] => []
  | c :: s' => if isspace c then lstrip s' else s
  end.

Definition rstrip (s : pystr) : pystr := rev (lstrip (rev s)).

Definition strip (s : pystr) : pystr := rstrip (lstrip s).

(** [s.startswith(p)]. *)
Fixpoint startswith (p s : pystr) : bool :=
  match p, s with
  | [], _ => true
  | _ :: _, [] => false
  | a :: p', b :: s' => (a =? b) && startswith p' s'
  end.

(** [s.split(sep)] for a non-empty [sep]: the string is scanned from the
    left; at each occurrence of [sep] the text collected so far is emitted
    and the scan resumes after the separator.  [skip] counts the separator
    characters still to be passed over, [cur] holds the current segment
    reversed. *)
Fixpoint split_go (sep : pystr) (skip : nat) (cur s : pystr) : list pystr :=
  match s with
  | [] => [rev cur]
  | c :: s' =>
      match skip with
      | S k => split_go sep k cur s'
      | O =>
          if startswith sep s
          then rev cur :: split_go sep (Nat.pred (length sep)) [] s'
          else split_go sep O (c :: cur) s'
      end
  end.

Definition split (sep s : pystr) : list pystr := split_go sep O [] s.

(** [sep.join(parts)]. *)
Fixpoint join (sep : pystr) (parts : list pystr) : pystr :=
  match parts with
  | [] => []
  | [p] => p
  | p :: ps => p ++ sep ++ join sep ps
  end.

(** [s[:n]]. *)
Definition slice_to (n : nat) (s : pystr) : pystr := take n s.

(** ** [os.path] on a POSIX system *)

Definition slash : N := 47.

Definition endswith_slash (s : pystr) : bool :=
  match last s with Some c => c =? slash | None => false end.

(** [posixpath.join(a, b)]. *)
Definition path_join (a b : pystr) : pystr :=
  if startswith [slash] b then b
  else if negb (str_truthy a) || endswith_slash a then a ++ b
  else a ++ [slash] ++ b.

(** [posixpath.basename(p)]: the text after the last slash. *)
Fixpoint basename_go (cur p : pystr) : pystr :=
  match p with
  | [] => rev cur
  | c :: p' => if c =? slash then basename_go [] p' else basename_go (c :: cur) p'
  end.

Definition basename (p : pystr) : pystr := basename_go [] p.

(** ** Exceptions and results

    An [exn] stands for an instance of Python's [Exception] (what an
    [except Exception] clause catches); [exn_str e] is [str(e)].  Signals
    that derive from [BaseException] only ([KeyboardInterrupt],
    [SystemExit]) are outside the model. *)

Record exn := Exn { exn_str : pystr }.

Inductive pyresult (A : Type) : Type :=
  | Ret (a : A)
  | Raise (e : exn).
Arguments Ret {A} a.
Arguments Raise {A} e.

(** ** Data model *)

(** What [newspaper.Article] holds after [download()] and [parse()];
    [p_publish_date] is [str(article.publish_date)] when the date is set. *)
Record parsed_article := {
  p_title : pystr;
  p_authors : list pystr;
  p_publish_date : option pystr;
  p_text : pystr;
  p_html : pystr;
  p_top_image : pystr
}.

(** The success dictionary of [extract_article]. *)
Record article := {
  a_title : pystr;
  a_authors : list pystr;
  a_publish_date : option pystr;
  a_text : pystr;
  a_html : pystr;
  a_top_image : pystr;
  a_url : pystr
}.

(** The two dictionaries [extract_article] returns: the article with
    ['success': True], or [{'success': False, 'error': .., 'url': ..}]. *)
Inductive article_data :=
  | ArticleOk (a : article)
  | ArticleErr (error url : pystr).

Definition ad_success (d : article_data) : bool :=
  match d with ArticleOk _ => true | ArticleErr _ _ => false end.

Definition ad_url (d : article_data) : pystr :=
  match d with ArticleOk a => a_url a | ArticleErr _ u => u end.

(** [article_data.get('error')]. *)
Definition ad_error (d : article_data) : option pystr :=
  match d with ArticleOk _ => None | ArticleErr e _ => Some e end.

(** The chapter and the book handed to [ebooklib]. *)
Record epub_html := {
  ch_title : pystr;
  ch_file_name : pystr;
  ch_lang : pystr;
  ch_content : pystr
}.

Record epub_book := {
  book_identifier : pystr;
  book_title : pystr;
  book_language : pystr;
  book_authors : list pystr;
  book_chapter : epub_html;
  book_toc : list (pystr * pystr * pystr);
  book_spine : list pystr
}.

(** An entry of [article_queue]. *)
Record pending_item := {
  url : pystr;
  title : pystr;
  added_at : pystr
}.

#[global] Instance pending_item_eq_dec : EqDecision pending_item.
Proof. solve_decision. Defined.

(** The mail built by [send_to_kindle]. *)
Record mime_message := {
  msg_from : pystr;
  msg_to : pystr;
  msg_subject : pystr;
  msg_body : pystr;
  att_filename : pystr;
  att_payload : epub_book
}.

(** The two dictionaries [send_to_kindle] returns. *)
Inductive send_result :=
  | SendOk (message : pystr)
  | SendErr (error : pystr).

Definition send_success (r : send_result) : bool :=
  match r with SendOk _ => true | SendErr _ => false end.

(** [result.get('error')]. *)
Definition send_error (r : send_result) : option pystr :=
  match r with SendOk _ => None | SendErr e => Some e end.

(** An entry of the [results] list of [send_queue]. *)
Inductive item_result :=
  | ItemSent (title : pystr) (success : bool) (error : option pystr)
  | ItemNotExtracted (url : pystr) (error : option pystr).

Definition item_success (r : item_result) : bool :=
  match r with ItemSent _ s _ => s | ItemNotExtracted _ _ => false end.

(** JSON bodies of the responses. *)
Inductive body :=
  | BodyError (error : pystr)
  | BodyArticle (d : article_data)
  | BodySendResult (r : send_result)
  | BodySent (message title : pystr)
  | BodyQueued (message : pystr) (queue_length : nat)
  | BodyQueue (queue : list pending_item) (count : nat)
  | BodyFlushed (results : list item_result) (remaining_in_queue : nat)
  | BodyCleared (message : pystr)
  | BodyHealth (status : pystr) (kindle_configured smtp_configured : bool).

(** The ['success'] entry of a body ([BodyHealth] has none). *)
Definition body_success (b : body) : option bool :=
  match b with
  | BodyError _ => Some false
  | BodyArticle d => Some (ad_success d)
  | BodySendResult r => Some (send_success r)
  | BodySent _ _ | BodyQueued _ _ | BodyQueue _ _
  | BodyFlushed _ _ | BodyCleared _ => Some true
  | BodyHealth _ _ _ => None
  end.

Record response := { status : nat; resp_body : body }.

(** What the first two lines of a handler that takes a URL,
    [data = request.get_json()] and [url = data.get('url')], come to.  For a
    body that is a JSON object they give its ['url'] entry: a string, or
    [None] when the key is absent or null (entries of other JSON types are
    not modelled).  For any other request they raise: [get_json] rejects a
    body that is not JSON, and [data.get] raises [AttributeError] when the
    JSON value is not an object (null, a list, a number, a string). *)
Inductive request_json :=
  | JsonObject (url_entry : option pystr)
  | NotAnObject (e : exn).

(** Module-level configuration, read from the environment at import. *)
Record config := {
  SMTP_SERVER : pystr;
  SMTP_PORT : Z;
  SMTP_USERNAME : option pystr;
  SMTP_PASSWORD : option pystr;
  KINDLE_EMAIL : option pystr;
  FROM_EMAIL : option pystr
}.

(** ** The world outside [app.py]

    Everything the module reaches through the Python runtime and its
    third-party libraries: the Unicode table behind [str.isalnum], the
    article fetcher, the clock, [tempfile.mkdtemp], the EPUB writer and the
    SMTP relay.  Each effectful entry threads a [World]. *)
Class Runtime := {
  World : Type;
  isalnum : N → bool;
  (** [Article(url)], [download()], [parse()] and the attribute reads. *)
  newspaper_article : pystr → World → pyresult parsed_article * World;
  (** [datetime.now().isoformat()]. *)
  datetime_now_isoformat : World → pystr * World;
  (** [datetime.now().timestamp()], formatted. *)
  datetime_now_timestamp : World → pystr * World;
  tempfile_mkdtemp : World → pyresult pystr * World;
  (** Whether [epub.write_epub(path, book)] raises. *)
  epub_write_error : pystr → epub_book → World → option exn * World;
  (** The whole relay dialogue: connect, [starttls], [login],
      [send_message], [quit]. *)
  smtp_dialogue :
    pystr → Z → pystr → pystr → mime_message → World → option exn * World
}.

Section App.
Context `{RT : Runtime}.
Variable cfg : config.

(** ** Program state and the monad of the handlers *)

Record state := {
  article_queue : list pending_item;
  files : gmap pystr epub_book;
  world : World
}.

Definition M (A : Type) : Type := state → pyresult A * state.

#[export] Instance M_ret : MRet M := λ A a st, (Ret a, st).

#[export] Instance M_bind : MBind M := λ A B f m st,
  match m st with
  | (Ret a, st') => f a st'
  | (Raise e, st') => (Raise e, st')
  end.

Definition raise {A} (e : exn) : M A := λ st, (Raise e, st).

(** [try: m  except Exception as e: h e]. *)
Definition try_except {A} (m : M A) (h : exn → M A) : M A := λ st,
  match m st with
  | (Ret a, st') => (Ret a, st')
  | (Raise e, st') => h e st'
  end.

(** [try: m  finally: f]; an exception of [f] replaces the outcome of [m]. *)
Definition try_finally {A} (m : M A) (f : M unit) : M A := λ st,
  match m st with
  | (r, st') =>
      match f st' with
      | (Ret _, st'') => (r, st'')
      | (Raise e, st'') => (Raise e, st'')
      end
  end.

Definition upd_world (w : World) (st : state) : state :=
  {| article_queue := article_queue st; files := files st; world := w |}.

Definition upd_files (fs : gmap pystr epub_book) (st : state) : state :=
  {| article_queue := article_queue st; files := fs; world := world st |}.

Definition upd_queue (q : list pending_item) (st : state) : state :=
  {| article_queue := q; files := files st; world := world st |}.

(** A call into the outside world that cannot raise, and one that can. *)
Definition with_world {A} (f : World → A * World) : M A := λ st,
  let '(a, w) := f (world st) in (Ret a, upd_world w st).

Definition with_world_result {A} (f : World → pyresult A * World) : M A := λ st,
  let '(r, w) := f (world st) in (r, upd_world w st).

Definition read_queue : M (list pending_item) := λ st, (Ret (article_queue st), st).

Definition set_queue (q : list pending_item) : M unit := λ st,
  (Ret tt, upd_queue q st).

Definition get_files : M (gmap pystr epub_book) := λ st, (Ret (files st), st).

Definition set_files (fs : gmap pystr epub_book) : M unit := λ st,
  (Ret tt, upd_files fs st).

(** *** Files

    The disk holds the packaged files the program wrote and has not removed,
    each with the book it was written from.  Every path on it names a
    regular file the program may remove: reading or removing a file that is
    not there raises, removing one that is there succeeds.  Directories
    (the one [tempfile.mkdtemp] makes among them) and what a failed write
    leaves behind are not part of it. *)

(** The [FileNotFoundError] for [path]; the text shown is the one Python
    gives for a path without quotes or characters that [repr] escapes. *)
Definition no_such_file (path : pystr) : exn :=
  Exn (py "[Errno 2] No such file or directory: '" ++ path ++ py "'").

(** [open(path, 'rb').read()]. *)
Definition open_rb (path : pystr) : M epub_book :=
  fs ← get_files;
  match fs !! path with
  | Some b => mret b
  | None => raise (no_such_file path)
  end.

Definition os_path_exists (path : pystr) : M bool :=
  fs ← get_files; mret (bool_decide (is_Some (fs !! path))).

Definition os_remove (path : pystr) : M unit :=
  fs ← get_files;
  match fs !! path with
  | Some _ => set_files (delete path fs)
  | None => raise (no_such_file path)
  end.

(** [epub.write_epub(path, book)]: the library either raises or leaves the
    file, recorded here by the book it was handed (the bytes the library
    makes of it are its own business). *)
Definition write_epub (path : pystr) (book : epub_book) : M unit :=
  err ← with_world (epub_write_error path book);
  match err with
  | Some e => raise e
  | None => fs ← get_files; set_files (<[path := book]> fs)
  end.

(** *** [list.append] and [list.remove] on [article_queue] *)

Definition queue_append (item : pending_item) : M unit :=
  q ← read_queue; set_queue (q ++ [item]).

(** [l.remove(x)] deletes the first element equal to [x]. *)
Fixpoint list_remove (x : pending_item) (l : list pending_item)
  : option (list pending_item) :=
  match l with
  | [] => None
  | y :: l' =>
      if decide (y = x) then Some l' else (y ::.) <$> list_remove x l'
  end.

Definition queue_remove (item : pending_item) : M unit :=
  q ← read_queue;
  match list_remove item q with
  | Some q' => set_queue q'
  | None => raise (Exn (py "list.remove(x): x not in list"))
  end.

(** ** [extract_article] *)

(** The dictionary of the [try] branch. *)
Definition article_of (url : pystr) (parsed : parsed_article) : article :=
  {| a_title := if str_truthy (p_title parsed) then p_title parsed
                else py "Untitled Article";
     a_authors := p_authors parsed;
     a_publish_date := p_publish_date parsed;
     a_text := p_text parsed;
     a_html := p_html parsed;
     a_top_image := p_top_image parsed;
     a_url := url |}.

Definition extract_article (url : pystr) : M article_data :=
  try_except
    (article ← with_world_result (newspaper_article url);
     mret (ArticleOk (article_of url article)))
    (λ e, mret (ArticleErr (exn_str e) url)).

(** ** [create_epub]

    [article_data] is always a success dictionary of [extract_article], in
    which every key is present, so each [article_data.get(k, default)] of
    the source reads the field. *)

Definition nl2 : pystr := [10; 10].

(** [para.strip()] as a condition. *)
Definition para_kept (para : pystr) : bool := str_truthy (strip para).

Definition p_tag (para : pystr) : pystr := py "<p>" ++ para ++ py "</p>".

(** The generator [f'<p>{para}</p>' for para in content.split('\n\n') if
    para.strip()]. *)
Definition body_paragraphs (content : pystr) : list pystr :=
  List.map p_tag (List.filter para_kept (split nl2 content)).

Definition html_head (article_data : article) : pystr :=
  let title := a_title article_data in
  let authors := a_authors article_data in
  py "
    <html>
    <head>
        <title>" ++ title ++ py "</title>
        <style>
            body { font-family: Georgia, serif; line-height: 1.6; padding: 20px; }
            h1 { margin-bottom: 10px; }
            .meta { color: #666; font-size: 0.9em; margin-bottom: 20px; }
            .content { text-align: justify; }
            p { margin-bottom: 1em; }
        </style>
    </head>
    <body>
        <h1>" ++ title ++ py "</h1>
        <div class=" ++ dq ++ py "meta" ++ dq ++ py ">
            <p>Source: <a href=" ++ dq ++ a_url article_data ++ dq ++ py ">"
    ++ a_url article_data ++ py "</a></p>
            "
    ++ (match authors with
        | [] => []
        | _ :: _ => py "<p>Authors: " ++ join (py ", ") authors ++ py "</p>"
        end)
    ++ py "
            "
    ++ (if opt_truthy (a_publish_date article_data)
        then py "<p>Published: " ++ default [] (a_publish_date article_data)
             ++ py "</p>"
        else [])
    ++ py "
        </div>
        <div class=" ++ dq ++ py "content" ++ dq ++ py ">
            ".

Definition html_tail : pystr :=
  py "
        </div>
    </body>
    </html>
    ".

Definition html_content (article_data : article) : pystr :=
  html_head article_data
  ++ join [] (body_paragraphs (a_text article_data))
  ++ html_tail.

(** [c.isalnum() or c in (' ', '-', '_')]. *)
Definition title_char_kept (c : N) : bool :=
  isalnum c || (c =? 32) || (c =? 45) || (c =? 95).

Definition safe_title (title : pystr) : pystr :=
  rstrip (List.filter title_char_kept title).

(** The file name [f"{safe_title[:50]}.epub"] and its stem. *)
Definition filename_stem (title : pystr) : pystr :=
  slice_to 50 (safe_title title).

Definition epub_filename (title : pystr) : pystr :=
  filename_stem title ++ py ".epub".

Definition make_book (article_data : article) (stamp : pystr) : epub_book :=
  let title := a_title article_data in
  {| book_identifier := py "kindle-sender-" ++ stamp;
     book_title := title;
     book_language := py "en";
     book_authors :=
       match a_authors article_data with
       | [] => [py "Unknown"]
       | authors => authors
       end;
     book_chapter :=
       {| ch_title := title;
          ch_file_name := py "content.xhtml";
          ch_lang := py "en";
          ch_content := html_content article_data |};
     book_toc := [(py "content.xhtml", title, py "content")];
     book_spine := [py "nav"; py "content.xhtml"] |}.

Definition create_epub (article_data : article) : M pystr :=
  stamp ← with_world datetime_now_timestamp;
  let book := make_book article_data stamp in
  temp_dir ← with_world_result tempfile_mkdtemp;
  let epub_path := path_join temp_dir (epub_filename (a_title article_data)) in
  write_epub epub_path book;;
  mret epub_path.

(** ** [send_to_kindle] *)

Definition config_error : pystr :=
  py "Email configuration incomplete. Please set SMTP_USERNAME, SMTP_PASSWORD, and KINDLE_EMAIL in .env".

(** [all([SMTP_USERNAME, SMTP_PASSWORD, KINDLE_EMAIL])]. *)
Definition configured : bool :=
  forallb opt_truthy
    [SMTP_USERNAME cfg; SMTP_PASSWORD cfg; KINDLE_EMAIL cfg].

Definition make_message (epub_path title : pystr) (payload : epub_book)
  : mime_message :=
  {| msg_from := opt_or (FROM_EMAIL cfg) (default [] (SMTP_USERNAME cfg));
     msg_to := default [] (KINDLE_EMAIL cfg);
     msg_subject := py "Kindle: " ++ title;
     msg_body := py "Article: " ++ title ++ [10] ++ py "Sent via Kindle Sender";
     att_filename := basename epub_path;
     att_payload := payload |}.

(** The [with smtplib.SMTP(SMTP_SERVER, SMTP_PORT) as server] block. *)
Definition smtp_send (msg : mime_message) : M unit :=
  err ← with_world
          (smtp_dialogue (SMTP_SERVER cfg) (SMTP_PORT cfg)
             (default [] (SMTP_USERNAME cfg)) (default [] (SMTP_PASSWORD cfg))
             msg);
  match err with
  | Some e => raise e
  | None => mret tt
  end.

(** The [finally] block. *)
Definition cleanup (epub_path : pystr) : M unit :=
  present ← os_path_exists epub_path;
  if present : bool then os_remove epub_path else mret tt.

Definition send_to_kindle (epub_path title : pystr) : M send_result :=
  if negb configured then mret (SendErr config_error)
  else
    try_finally
      (try_except
         (payload ← open_rb epub_path;
          smtp_send (make_message epub_path title payload);;
          mret (SendOk (py "Sent " ++ dq ++ title ++ dq ++ py " to Kindle")))
         (λ e, mret (SendErr (exn_str e))))
      (cleanup epub_path).

(** ** Request handlers

    A handler receives what [request.get_json().get('url')] gives: [None]
    when the key is absent, or the string sent. *)

Definition respond (code : nat) (b : body) : M response :=
  mret {| status := code; resp_body := b |}.

Definition health_check : M response :=
  respond 200
    (BodyHealth (py "ok") (opt_truthy (KINDLE_EMAIL cfg))
       (opt_truthy (SMTP_USERNAME cfg) && opt_truthy (SMTP_PASSWORD cfg))).

Definition send_article (url_field : option pystr) : M response :=
  if negb (opt_truthy url_field)
  then respond 400 (BodyError (py "URL is required"))
  else
    let url := default [] url_field in
    article_data ← extract_article url;
    match article_data with
    | ArticleErr _ _ => respond 400 (BodyArticle article_data)
    | ArticleOk a =>
        packaged ← try_except (epub_path ← create_epub a; mret (inl epub_path))
                     (λ e, mret (inr (py "Failed to create EPUB: " ++ exn_str e)));
        match packaged with
        | inr msg => respond 500 (BodyError msg)
        | inl epub_path =>
            result ← send_to_kindle epub_path (a_title a);
            match result with
            | SendOk message => respond 200 (BodySent message (a_title a))
            | SendErr _ => respond 500 (BodySendResult result)
            end
        end
    end.

Definition queue_article (url_field : option pystr) : M response :=
  if negb (opt_truthy url_field)
  then respond 400 (BodyError (py "URL is required"))
  else
    let url := default [] url_field in
    article_data ← extract_article url;
    match article_data with
    | ArticleErr _ _ => respond 400 (BodyArticle article_data)
    | ArticleOk a =>
        stamp ← with_world datetime_now_isoformat;
        queue_append {| url := url; title := a_title a; added_at := stamp |};;
        q ← read_queue;
        respond 200
          (BodyQueued (py "Added " ++ dq ++ a_title a ++ dq ++ py " to queue")
             (length q))
    end.

Definition get_queue : M response :=
  q ← read_queue; respond 200 (BodyQueue q (length q)).

(** The body of the [for item in article_queue[:]] loop; it gives the
    [results] list after the iteration. *)
Definition flush_item (item : pending_item) (results : list item_result)
  : M (list item_result) :=
  article_data ← extract_article (url item);
  match article_data with
  | ArticleOk a =>
      epub_path ← create_epub a;
      result ← send_to_kindle epub_path (a_title a);
      let results' :=
        results ++ [ItemSent (a_title a) (send_success result) (send_error result)] in
      (if send_success result then queue_remove item else mret tt);;
      mret results'
  | ArticleErr _ _ =>
      mret (results ++ [ItemNotExtracted (url item) (ad_error article_data)])
  end.

Fixpoint flush_loop (snapshot : list pending_item) (results : list item_result)
  : M (list item_result) :=
  match snapshot with
  | [] => mret results
  | item :: rest =>
      results' ← flush_item item results;
      flush_loop rest results'
  end.

Definition send_queue : M response :=
  q ← read_queue;
  match q with
  | [] => respond 400 (BodyError (py "Queue is empty"))
  | _ :: _ =>
      results ← flush_loop q [];
      q' ← read_queue;
      respond 200 (BodyFlushed results (length q'))
  end.

Definition clear_queue : M response :=
  set_queue [];;
  respond 200 (BodyCleared (py "Queue cleared")).

Definition preview_article (url_field : option pystr) : M response :=
  if negb (opt_truthy url_field)
  then respond 400 (BodyError (py "URL is required"))
  else
    article_data ← extract_article (default [] url_field);
    respond 200 (BodyArticle article_data).

(** *** The handlers from the request on

    [send_article] and [queue_article] above start at the test of [url];
    these start at the top of the functions, with the two lines that read
    the request. *)

Definition request_url (body : request_json) : M (option pystr) :=
  match body with
  | JsonObject url_entry => mret url_entry
  | NotAnObject e => raise e
  end.

Definition send_article_request (body : request_json) : M response :=
  url_field ← request_url body; send_article url_field.

Definition queue_article_request (body : request_json) : M response :=
  url_field ← request_url body; queue_article url_field.

End App.

(** * Vocabulary of the specification *)

(** [occurs sep s]: [sep] is a substring of [s]. *)
Definition occurs (sep s : pystr) : Prop := ∃ a b, s = a ++ sep ++ b.

(** The specification's paragraphs: the body text cut at every blank-line
    boundary (two consecutive newlines), the boundaries taken from the left.
    A segment before a boundary neither holds a boundary nor touches the
    first newline of the one that ends it; the last segment holds none. *)
Inductive blank_line_split : pystr → list pystr → Prop :=
  | bls_last (s : pystr) :
      ¬ occurs nl2 s → blank_line_split s [s]
  | bls_cut (seg rest : pystr) (segs : list pystr) :
      ¬ occurs nl2 (seg ++ [10]) →
      blank_line_split rest segs →
      blank_line_split (seg ++ nl2 ++ rest) (seg :: segs).






(** The items a flush is expected to leave: those of [items] whose flag in
    [delivered] is false, in their order; items without a flag were not
    reached and stay. *)
Fixpoint survivors (items : list pending_item) (delivered : list bool)
  : list pending_item :=
  match items, delivered with
  | [], _ => []
  | _, [] => items
  | x :: items', d :: delivered' =>
      if d then survivors items' delivered'
      else x :: survivors items' delivered'
  end.

(** The number of delivered items. *)
Definition delivered_count (delivered : list bool) : nat :=
  length (List.filter (λ d : bool, d) delivered).

(** No call of the packaging stage into the outside world raises. *)
Definition packaging_never_raises `{Runtime} : Prop :=
  (∀ w, ∃ d w', tempfile_mkdtemp w = (Ret d, w'))
  ∧ (∀ p b w, ∃ w', epub_write_error p b w = (None, w')).

(** [p] put in front of the first segment. *)
Definition extend_first (p : pystr) (segs : list pystr) : list pystr :=
  match segs with
  | [] => []
  | first :: others => (p ++ first) :: others
  end.

(** What [pre] becomes when [x] is removed from [pre ++ x :: rest] by
    [list.remove]: if [pre] already holds an entry equal to [x], that entry
    goes and the later one stays behind the others. *)
Definition rotate_in (x : pending_item) (pre : list pending_item)
  : list pending_item :=
  match list_remove x pre with
  | Some pre' => pre' ++ [x]
  | None => pre
  end.

(** * Concrete runs

    Scripted outside worlds on which the functions are evaluated.  The world
    is the log of the calls made so far. *)

Module Scenario.

Inductive event :=
  | Fetched (url : pystr)
  | TempDir (dir : pystr)
  | Wrote (path : pystr)
  | Mailed (subject : pystr).

(** [str.isalnum] cut down to ASCII: true on the ASCII letters and digits
    only. *)
Definition ascii_isalnum (c : N) : bool :=
  ((48 <=? c) && (c <=? 57)) || ((65 <=? c) && (c <=? 90))
  || ((97 <=? c) && (c <=? 122)).

(** A clock reading: one tick per call already logged. *)
Definition stamp_of (log : list event) : pystr :=
  py "17000000" ++ replicate (length log) 48.

Definition scripted
    (fetch : list event → pystr → pyresult parsed_article)
    (write_err : pystr → option exn)
    (smtp_err : mime_message → option exn) : Runtime :=
  {| World := list event;
     isalnum := ascii_isalnum;
     newspaper_article := λ u log, (fetch log u, log ++ [Fetched u]);
     datetime_now_isoformat := λ log, (stamp_of log, log);
     datetime_now_timestamp := λ log, (stamp_of log, log);
     tempfile_mkdtemp := λ log,
       let dir := py "/tmp/tmp" ++ replicate (length log) 120 in
       (Ret dir, log ++ [TempDir dir]);
     epub_write_error := λ path book log, (write_err path, log ++ [Wrote path]);
     smtp_dialogue := λ server port user password msg log,
       (smtp_err msg, log ++ [Mailed (msg_subject msg)]) |}.

(** What the fetcher finds at a working address. *)
Definition page : parsed_article :=
  {| p_title := py "Tide tables";
     p_authors := [py "A. Reader"];
     p_publish_date := Some (py "2024-03-01 00:00:00");
     p_text := py "First paragraph." ++ [10; 10; 32; 9; 10; 10]
               ++ py "Second paragraph.";
     p_html := py "<html></html>";
     p_top_image := [] |}.

Definition good_url : pystr := py "https://example.com/a".
Definition down_url : pystr := py "https://down.example/b".

Definition download_failed : exn :=
  Exn (py "Article `download()` failed on URL https://down.example/b").

(** Every address works but [down_url]; writing and mailing succeed. *)
Definition steady : Runtime :=
  scripted
    (λ log u, if decide (u = down_url) then Raise download_failed else Ret page)
    (λ path, None) (λ msg, None).

(** As [steady], but writing the EPUB file fails. *)
Definition full_disk : Runtime :=
  scripted
    (λ log u, if decide (u = down_url) then Raise download_failed else Ret page)
    (λ path, Some (Exn (py "[Errno 28] No space left on device")))
    (λ msg, None).

(** The fetcher raises an exception without a message. *)
Definition mute : Runtime :=
  scripted (λ log u, Raise (Exn [])) (λ path, None) (λ msg, None).

Definition cfg_ok : config :=
  {| SMTP_SERVER := py "smtp.gmail.com";
     SMTP_PORT := 587;
     SMTP_USERNAME := Some (py "me@example.com");
     SMTP_PASSWORD := Some (py "secret");
     KINDLE_EMAIL := Some (py "me@kindle.com");
     FROM_EMAIL := None |}.

(** [SMTP_USERNAME] is not set. *)
Definition cfg_unset : config :=
  {| SMTP_SERVER := py "smtp.gmail.com";
     SMTP_PORT := 587;
     SMTP_USERNAME := None;
     SMTP_PASSWORD := Some (py "secret");
     KINDLE_EMAIL := Some (py "me@kindle.com");
     FROM_EMAIL := None |}.

Definition start `{RT : Runtime} (q : list pending_item) (w : World) : state :=
  {| article_queue := q; files := ∅; world := w |}.

Definition item_a : pending_item :=
  {| url := good_url; title := py "Tide tables";
     added_at := py "2024-03-02T09:00:00.000001" |}.

Definition item_b : pending_item :=
  {| url := down_url; title := py "Harbour notes";
     added_at := py "2024-03-02T09:05:00.000001" |}.

(** An article whose title has no character that survives in a file name. *)
Definition punctuated : article :=
  {| a_title := py "?!";
     a_authors := [];
     a_publish_date := None;
     a_text := py "Text.";
     a_html := [];
     a_top_image := [];
     a_url := good_url |}.

(** A packaged file left by [create_epub], and a state that holds it. *)
Definition packaged_path : pystr := py "/tmp/tmpx/Tide tables.epub".

Definition packaged_book : epub_book :=
  make_book (article_of good_url page) (py "1700000000.5").

Definition with_packaged (RT : Runtime) (w : World) : state :=
  {| article_queue := []; files := {[ packaged_path := packaged_book ]};
     world := w |}.

Definition item_c : pending_item :=
  {| url := py "https://example.com/c"; title := py "Tide tables";
     added_at := py "2024-03-02T09:10:00.000001" |}.

(** The article [extract_article] builds from [page]. *)
Definition tide : article := article_of good_url page.

(** The item [queue_article] appends for [good_url] in a fresh world. *)
Definition queued_item : pending_item :=
  {| url := good_url; title := py "Tide tables";
     added_at := stamp_of [Fetched good_url] |}.

(** A clock whose reading repeats, as a naive local clock does when it is
    set back and a coarse one does between two close calls.  The three
    fetches made while the items are enqueued succeed, the first two of the
    flush fail and the later ones succeed. *)
Definition stalled : Runtime :=
  {| World := list event;
     isalnum := ascii_isalnum;
     newspaper_article := λ u log,
       (if (3 <=? length log)%nat && (length log <? 5)%nat
        then Raise download_failed else Ret page,
        log ++ [Fetched u]);
     datetime_now_isoformat := λ log, (py "2024-10-27T02:30:00.000000", log);
     datetime_now_timestamp := λ log, (stamp_of log, log);
     tempfile_mkdtemp := λ log,
       let dir := py "/tmp/tmp" ++ replicate (length log) 120 in
       (Ret dir, log ++ [TempDir dir]);
     epub_write_error := λ path book log, (None, log ++ [Wrote path]);
     smtp_dialogue := λ server port user password msg log,
       (None, log ++ [Mailed (msg_subject msg)]) |}.

Definition other_url : pystr := py "https://example.com/c".

(** The entry [queue_article] stores for [good_url] under [stalled], and the
    one for [other_url]. *)
Definition twin : pending_item :=
  {| url := good_url; title := py "Tide tables";
     added_at := py "2024-10-27T02:30:00.000000" |}.

Definition between : pending_item :=
  {| url := other_url; title := py "Tide tables";
     added_at := py "2024-10-27T02:30:00.000000" |}.



End Scenario.
(** * Module start-up: the configuration read from the environment

    The module-level assignments: [os.getenv] on the process environment
    (after [load_dotenv]), with [int] applied to the two port settings. *)

Section Startup.

(** [int(s)] of the runtime on a string; it raises [ValueError] on text that
    is not a number. *)
Variable py_int : pystr → pyresult Z.

(** [os.getenv(key)]. *)
Definition os_getenv (env : gmap pystr pystr) (key : pystr) : option pystr :=
  env !! key.

(** [int(os.getenv(key, default))] with an integer default. *)
Definition getenv_int (env : gmap pystr pystr) (key : pystr) (dflt : Z)
  : pyresult Z :=
  match os_getenv env key with
  | Some s => py_int s
  | None => Ret dflt
  end.

(** The configuration block; the second component is [SERVER_PORT]. *)
Definition load_config (env : gmap pystr pystr) : pyresult (config * Z) :=
  match getenv_int env (py "SMTP_PORT") 587 with
  | Raise e => Raise e
  | Ret smtp_port =>
      match getenv_int env (py "SERVER_PORT") 5123 with
      | Raise e => Raise e
      | Ret server_port =>
          Ret ({| SMTP_SERVER :=
                    default (py "smtp.gmail.com") (os_getenv env (py "SMTP_SERVER"));
                  SMTP_PORT := smtp_port;
                  SMTP_USERNAME := os_getenv env (py "SMTP_USERNAME");
                  SMTP_PASSWORD := os_getenv env (py "SMTP_PASSWORD");
                  KINDLE_EMAIL := os_getenv env (py "KINDLE_EMAIL");
                  FROM_EMAIL := os_getenv env (py "FROM_EMAIL") |},
               server_port)
      end
  end.

End Startup.

(** The answer of the three handlers that take a URL when none is given. *)
Definition url_required : response :=
  {| status := 400; resp_body := BodyError (py "URL is required") |}.

Module Startup_scenario.

(** An [int] for plain ASCII digit strings. *)
Fixpoint digits_value (acc : Z) (s : pystr) : option Z :=
  match s with
  | [] => Some acc
  | c :: s' =>
      if (48 <=? c) && (c <=? 57)
      then digits_value (10 * acc + Z.of_N (c - 48))%Z s'
      else None
  end.

Definition ascii_int (s : pystr) : pyresult Z :=
  match s with
  | [] => Raise (Exn (py "invalid literal for int() with base 10: ''"))
  | _ :: _ =>
      match digits_value 0 s with
      | Some z => Ret z
      | None => Raise (Exn (py "invalid literal for int() with base 10"))
      end
  end.

(** A [.env] with the relay and the destination filled in. *)
Definition env_full : gmap pystr pystr :=
  <[py "SMTP_USERNAME" := py "me@example.com"]>
    (<[py "SMTP_PASSWORD" := py "secret"]>
       (<[py "KINDLE_EMAIL" := py "me@kindle.com"]>
          (<[py "SMTP_PORT" := py "2525"]> ∅))).

End Startup_scenario.

(** * Properties *)

(** ** Strings *)

Lemma lstrip_Forall (P : N → Prop) (s : pystr) :
  Forall P s → Forall P (lstrip s).
Proof.
  induction 1 as [|c s Hc Hs IH]; simpl; [constructor|].
  destruct (isspace c); [exact IH | by constructor].
Qed.

Lemma rstrip_Forall (P : N → Prop) (s : pystr) :
  Forall P s → Forall P (rstrip s).
Proof.
  intros Hs. unfold rstrip.
  apply Forall_rev, lstrip_Forall, Forall_rev, Hs.
Qed.

Lemma lstrip_nil_iff (s : pystr) :
  lstrip s = [] ↔ forallb isspace s = true.
Proof.
  induction s as [|c s IH]; simpl; [done|].
  destruct (isspace c); simpl; [exact IH | split; discriminate].
Qed.

Lemma forallb_rev (f : N → bool) (s : pystr) :
  forallb f (rev s) = forallb f s.
Proof.
  induction s as [|c s IH]; simpl; [done|].
  rewrite forallb_app, IH. simpl. rewrite andb_true_r. apply andb_comm.
Qed.

Lemma forallb_lstrip (s : pystr) :
  forallb isspace (lstrip s) = forallb isspace s.
Proof.
  induction s as [|c s IH]; simpl; [done|].
  destruct (isspace c) eqn:Hc; simpl; [exact IH | by rewrite Hc].
Qed.

Lemma rstrip_nil_iff (s : pystr) :
  rstrip s = [] ↔ forallb isspace s = true.
Proof.
  unfold rstrip. rewrite <- (forallb_rev isspace s), <- lstrip_nil_iff.
  split; intros Hs.
  - apply (f_equal (@rev N)) in Hs. by rewrite rev_involutive in Hs.
  - by rewrite Hs.
Qed.

(** [para.strip()] is empty exactly for a paragraph of whitespace only. *)
Lemma para_kept_spec (para : pystr) :
  para_kept para = negb (forallb isspace para).
Proof.
  unfold para_kept, strip.
  destruct (forallb isspace para) eqn:Hws; simpl.
  - assert (Hnil : rstrip (lstrip para) = []).
    { apply rstrip_nil_iff. by rewrite forallb_lstrip. }
    by rewrite Hnil.
  - destruct (rstrip (lstrip para)) eqn:Hr; [|done].
    apply rstrip_nil_iff in Hr. rewrite forallb_lstrip in Hr. congruence.
Qed.

(** ** [os.path] *)

Lemma basename_go_no_slash (cur f : pystr) :
  Forall (λ c, c ≠ slash) f → basename_go cur f = rev cur ++ f.
Proof.
  intros Hf. revert cur.
  induction Hf as [|c f Hc Hf IH]; intros cur; cbn [basename_go].
  - by rewrite app_nil_r.
  - apply N.eqb_neq in Hc. rewrite Hc, IH. simpl. by rewrite <- app_assoc.
Qed.

Lemma basename_go_after_slash (cur d f : pystr) :
  basename_go cur (d ++ slash :: f) = basename_go [] f.
Proof.
  revert cur. induction d as [|c d IH]; intros cur; cbn [basename_go app].
  - by rewrite N.eqb_refl.
  - destruct (c =? slash); apply IH.
Qed.

(** The base name of [os.path.join(d, f)] is [f] when [f] has no slash. *)
Lemma basename_path_join (d f : pystr) :
  Forall (λ c, c ≠ slash) f → basename (path_join d f) = f.
Proof.
  intros Hf. unfold path_join, basename.
  assert (Hstart : startswith [slash] f = false).
  { destruct Hf as [|c f Hc _]; [done|]. cbn [startswith].
    rewrite andb_true_r. apply N.eqb_neq. congruence. }
  rewrite Hstart.
  destruct d as [|c0 d0] eqn:Hd; simpl negb; cbv iota.
  - rewrite orb_true_l. cbv iota. simpl. by apply basename_go_no_slash.
  - rewrite orb_false_l. rewrite <- Hd.
    destruct (endswith_slash d) eqn:Hend.
    + unfold endswith_slash in Hend.
      destruct (last d) as [c|] eqn:Hlast; [|done].
      apply N.eqb_eq in Hend. subst c.
      apply last_Some in Hlast as [d' Hd'].
      rewrite Hd', <- app_assoc. simpl.
      rewrite basename_go_after_slash. by apply basename_go_no_slash.
    + change (d ++ [slash] ++ f) with (d ++ slash :: f).
      rewrite basename_go_after_slash. by apply basename_go_no_slash.
Qed.

(** ** The file name derived from the title *)

Lemma safe_title_chars `{Runtime} (title : pystr) :
  Forall (λ c, title_char_kept c = true) (safe_title title).
Proof.
  unfold safe_title. apply rstrip_Forall.
  apply Forall_forall. intros c Hc.
  apply list_elem_of_In, filter_In in Hc. tauto.
Qed.

Lemma title_char_kept_spec `{Runtime} (c : N) :
  title_char_kept c = true ↔ isalnum c = true ∨ c = 32 ∨ c = 45 ∨ c = 95.
Proof.
  unfold title_char_kept.
  rewrite !orb_true_iff, !N.eqb_eq. tauto.
Qed.

(** C7: the file-name stem [safe_title[:50]] that [create_epub] derives from
    a title holds only characters that are alphanumeric ([str.isalnum]), a
    space, a hyphen or an underscore, and is at most 50 characters long. *)
Theorem filename_stem_safe `{Runtime} (title : pystr) :
  Forall (λ c, isalnum c = true ∨ c = 32 ∨ c = 45 ∨ c = 95)
    (filename_stem title)
  ∧ (length (filename_stem title) ≤ 50)%nat.
Proof.
  split.
  - unfold filename_stem, slice_to. apply Forall_take.
    eapply Forall_impl; [apply safe_title_chars|].
    intros c Hc. by apply title_char_kept_spec.
  - unfold filename_stem, slice_to. rewrite length_take. lia.
Qed.

(** ** Running the functions

    Each function is unfolded once into the calls it makes to the outside
    world; the later proofs reason from these equations. *)

Ltac unfold_monad :=
  unfold mbind, M_bind, mret, M_ret, raise, try_except, try_finally,
    with_world, with_world_result, read_queue, set_queue, get_files,
    set_files, respond.

Section Runs.
Context `{RT : Runtime}.
Variable cfg : config.

Lemma extract_article_run (url : pystr) (st : state) :
  extract_article url st =
    match newspaper_article url (world st) with
    | (Ret parsed, w) =>
        (Ret (ArticleOk (article_of url parsed)), upd_world w st)
    | (Raise e, w) => (Ret (ArticleErr (exn_str e) url), upd_world w st)
    end.
Proof.
  unfold extract_article. unfold_monad.
  by destruct (newspaper_article url (world st)) as [[parsed|e] w].
Qed.

Lemma create_epub_run (a : article) (st : state) :
  create_epub a st =
    let '(stamp, w1) := datetime_now_timestamp (world st) in
    match tempfile_mkdtemp w1 with
    | (Raise e, w2) => (Raise e, upd_world w2 st)
    | (Ret temp_dir, w2) =>
        let path := path_join temp_dir (epub_filename (a_title a)) in
        match epub_write_error path (make_book a stamp) w2 with
        | (Some e, w3) => (Raise e, upd_world w3 st)
        | (None, w3) =>
            (Ret path,
             upd_files (<[path := make_book a stamp]> (files st))
               (upd_world w3 st))
        end
    end.
Proof.
  unfold create_epub, write_epub. unfold_monad.
  destruct (datetime_now_timestamp (world st)) as [stamp w1]. cbn.
  destruct (tempfile_mkdtemp w1) as [[temp_dir|e] w2]; cbn; [|done].
  by destruct (epub_write_error _ _ w2) as [[e|] w3].
Qed.

Lemma send_to_kindle_unconfigured (epub_path title : pystr) (st : state) :
  configured cfg = false →
  send_to_kindle cfg epub_path title st = (Ret (SendErr config_error), st).
Proof. intros Hcfg. unfold send_to_kindle. by rewrite Hcfg. Qed.

Lemma send_to_kindle_configured (epub_path title : pystr) (st : state) :
  configured cfg = true →
  send_to_kindle cfg epub_path title st =
    match files st !! epub_path with
    | None => (Ret (SendErr (exn_str (no_such_file epub_path))), st)
    | Some payload =>
        match smtp_dialogue (SMTP_SERVER cfg) (SMTP_PORT cfg)
                (default [] (SMTP_USERNAME cfg)) (default [] (SMTP_PASSWORD cfg))
                (make_message cfg epub_path title payload) (world st) with
        | (None, w) =>
            (Ret (SendOk (py "Sent " ++ dq ++ title ++ dq ++ py " to Kindle")),
             upd_files (delete epub_path (files st)) (upd_world w st))
        | (Some e, w) =>
            (Ret (SendErr (exn_str e)),
             upd_files (delete epub_path (files st)) (upd_world w st))
        end
    end.
Proof.
  intros Hcfg. unfold send_to_kindle. rewrite Hcfg. cbn [negb].
  unfold cleanup, os_path_exists, os_remove, open_rb, smtp_send. unfold_monad.
  destruct (files st !! epub_path) as [payload|] eqn:Hfile.
  - destruct (smtp_dialogue _ _ _ _ _ (world st)) as [[e|] w]; cbn;
      rewrite Hfile, bool_decide_eq_true_2 by eauto; cbn; by rewrite Hfile.
  - rewrite Hfile. by rewrite bool_decide_eq_false_2 by (by intros [? ?]).
Qed.

Lemma queue_article_run (url_field : option pystr) (st : state) :
  queue_article url_field st =
    if negb (opt_truthy url_field)
    then (Ret {| status := 400; resp_body := BodyError (py "URL is required") |}, st)
    else
      let url := default [] url_field in
      match newspaper_article url (world st) with
      | (Raise e, w) =>
          (Ret {| status := 400;
                  resp_body := BodyArticle (ArticleErr (exn_str e) url) |},
           upd_world w st)
      | (Ret parsed, w) =>
          let '(stamp, w') := datetime_now_isoformat w in
          let a := article_of url parsed in
          let q := article_queue st
                   ++ [{| url := url; title := a_title a; added_at := stamp |}] in
          (Ret {| status := 200;
                  resp_body :=
                    BodyQueued (py "Added " ++ dq ++ a_title a ++ dq ++ py " to queue")
                      (length q) |},
           upd_queue q (upd_world w' st))
      end.
Proof.
  unfold queue_article. destruct (negb (opt_truthy url_field)); [done|].
  cbv zeta. unfold mbind at 1, M_bind at 1. rewrite extract_article_run.
  destruct (newspaper_article _ (world st)) as [[parsed|e] w]; [|done].
  unfold queue_append. unfold_monad. cbn.
  by destruct (datetime_now_isoformat w) as [stamp w'].
Qed.

End Runs.

(** ** Paragraphs: [content.split('\n\n')] against the specification *)

Lemma split_go_extend (sep s : pystr) (k : nat) (cur : pystr) :
  split_go sep k cur s = extend_first (rev cur) (split_go sep k [] s).
Proof.
  revert k cur. induction s as [|c s IH]; intros k cur.
  - simpl. by rewrite app_nil_r.
  - cbn [split_go]. destruct k as [|k].
    + destruct (startswith sep (c :: s)).
      * simpl. by rewrite app_nil_r.
      * rewrite (IH O (c :: cur)), (IH O [c]).
        destruct (split_go sep 0 [] s) as [|first others]; [done|].
        simpl. by rewrite <- !app_assoc.
    + apply IH.
Qed.

Lemma split_nl2_boundary (rest : pystr) :
  split nl2 (10 :: 10 :: rest) = [] :: split nl2 rest.
Proof. reflexivity. Qed.

Lemma split_nl2_other (c : N) (s : pystr) :
  startswith nl2 (c :: s) = false →
  split nl2 (c :: s) = extend_first [c] (split nl2 s).
Proof.
  intros Hstart. unfold split. cbn [split_go]. rewrite Hstart.
  apply (split_go_extend nl2 s O [c]).
Qed.

Lemma startswith_nl2_inv (s : pystr) :
  startswith nl2 s = true → ∃ rest, s = 10 :: 10 :: rest.
Proof.
  destruct s as [|c [|d rest]]; cbn [startswith nl2].
  - discriminate.
  - rewrite andb_false_r. discriminate.
  - rewrite andb_true_r. intros [Hc Hd]%andb_prop.
    apply N.eqb_eq in Hc, Hd. subst. by exists rest.
Qed.

Lemma occurs_nl2_nil : ¬ occurs nl2 [].
Proof. intros ([|? ?] & b & Hab); discriminate. Qed.

Lemma occurs_nl2_cons (c : N) (s : pystr) :
  occurs nl2 (c :: s) ↔ startswith nl2 (c :: s) = true ∨ occurs nl2 s.
Proof.
  split.
  - intros ([|c' a] & b & Hab).
    + left. simpl in Hab. by rewrite Hab.
    + right. exists a, b. by injection Hab.
  - intros [Hstart | (a & b & Hab)].
    + apply startswith_nl2_inv in Hstart as [rest ->]. by exists [], rest.
    + exists (c :: a), b. by rewrite Hab.
Qed.

Lemma startswith_nl2_before_boundary (c : N) (seg rest : pystr) :
  startswith nl2 (c :: seg ++ [10]) = startswith nl2 (c :: seg ++ nl2 ++ rest).
Proof. by destruct seg. Qed.

Lemma blank_line_split_extend (c : N) (s : pystr) (segs : list pystr) :
  blank_line_split s segs →
  startswith nl2 (c :: s) = false →
  blank_line_split (c :: s) (extend_first [c] segs).
Proof.
  intros Hsplit Hstart. destruct Hsplit as [s Hno | seg rest segs Hno Hrest].
  - apply bls_last. rewrite occurs_nl2_cons. intros [Hs | Hs]; [congruence | done].
  - apply (bls_cut (c :: seg) rest segs); [|done].
    change ((c :: seg) ++ [10]) with (c :: seg ++ [10]).
    rewrite occurs_nl2_cons, startswith_nl2_before_boundary with (rest := rest).
    intros [Hs | Hs]; [congruence | done].
Qed.

(** Python's split on ['\n\n'] yields the specification's segments. *)
Lemma split_blank_line_split (s : pystr) : blank_line_split s (split nl2 s).
Proof.
  induction s as [s IH] using (induction_ltof1 _ (@length N)).
  unfold ltof in IH. destruct s as [|c s].
  - apply bls_last, occurs_nl2_nil.
  - destruct (startswith nl2 (c :: s)) eqn:Hstart.
    + apply startswith_nl2_inv in Hstart as [rest Hrest].
      injection Hrest as -> ->. rewrite split_nl2_boundary.
      apply (bls_cut [] rest).
      * cbn [app]. rewrite occurs_nl2_cons. intros [Hs | Hs]; [done|].
        by apply occurs_nl2_nil.
      * apply IH. simpl. lia.
    + rewrite split_nl2_other by done.
      apply blank_line_split_extend; [|done]. apply IH. simpl. lia.
Qed.





Lemma occurs_refl (s : pystr) : occurs s s.
Proof. exists [], []. by rewrite app_nil_r. Qed.

Lemma occurs_forallb (f : N → bool) (seg s : pystr) :
  occurs seg s → forallb f s = true → forallb f seg = true.
Proof.
  intros (a & b & ->). rewrite !forallb_app.
  intros [_ [? _]%andb_prop]%andb_prop. done.
Qed.

(** The segments of the specification give the text back when joined by
    the boundary, hold no boundary and are parts of the text. *)
Lemma blank_line_split_facts (s : pystr) (segs : list pystr) :
  blank_line_split s segs →
  segs ≠ [] ∧ join nl2 segs = s
  ∧ Forall (λ seg, ¬ occurs nl2 seg ∧ occurs seg s) segs.
Proof.
  induction 1 as [s Hno | seg rest segs Hno Hrest (Hne & Hjoin & Hall)].
  - split; [done|]. split; [done|]. constructor; [|constructor].
    split; [done | apply occurs_refl].
  - split; [done|]. split.
    + destruct segs as [|seg' segs']; [done|]. cbn [join] in *.
      by rewrite Hjoin.
    + constructor.
      * split.
        -- intros (a & b & ->). apply Hno. exists a, (b ++ [10]).
           by rewrite <- !app_assoc.
        -- by exists [], (nl2 ++ rest).
      * eapply Forall_impl; [exact Hall|]. intros x [Hx (a & b & ->)].
        split; [done|]. exists (seg ++ nl2 ++ a), b. by rewrite <- !app_assoc.
Qed.

(** *** Reading the paragraphs back from the markup *)





(** ** The stages, one at a time *)

Section Stages.
Context `{RT : Runtime}.
Variable cfg : config.

(** [extract_article] returns a dictionary whatever the library does, and
    touches neither the queue nor the files. *)
Lemma extract_article_ret (url : pystr) (st : state) :
  ∃ d st', extract_article url st = (Ret d, st')
    ∧ article_queue st' = article_queue st ∧ files st' = files st.
Proof.
  rewrite extract_article_run.
  destruct (newspaper_article url (world st)) as [[parsed|e] w]; eauto.
Qed.

(** C4, as the code has it: for every URL, [extract_article] never raises to
    its caller.  It returns a dictionary that carries the URL given; when the
    library returned an article the dictionary has [success] true, and when
    the library raised [e] it has [success] false and [error] equal to
    [str(e)], so the error text is non-empty exactly when the message of the
    exception is. *)
Theorem extract_article_never_raises (url : pystr) (st : state) :
  ∃ d st', extract_article url st = (Ret d, st')
    ∧ ad_url d = url
    ∧ match newspaper_article url (world st) with
      | (Ret _, _) => ad_success d = true
      | (Raise e, _) =>
          ad_success d = false ∧ ad_error d = Some (exn_str e)
          ∧ (ad_error d ≠ Some [] ↔ exn_str e ≠ [])
      end.
Proof.
  rewrite extract_article_run.
  destruct (newspaper_article url (world st)) as [[parsed|e] w];
    eexists _, _; (split; [reflexivity|]); cbn; [done|].
  repeat split; [intros Hne Hnil | intros Hne [=]]; by apply Hne; f_equal.
Qed.

(** [create_epub] leaves the queue alone; when it returns, the book is in
    the file it names. *)
Lemma create_epub_cases (a : article) (st : state) :
  (∃ e st', create_epub a st = (Raise e, st')
     ∧ article_queue st' = article_queue st)
  ∨ (∃ path st' stamp, create_epub a st = (Ret path, st')
       ∧ article_queue st' = article_queue st
       ∧ files st' !! path = Some (make_book a stamp)).
Proof.
  rewrite create_epub_run.
  destruct (datetime_now_timestamp (world st)) as [stamp w1].
  destruct (tempfile_mkdtemp w1) as [[temp_dir|e] w2]; [|left; eauto].
  cbv zeta.
  destruct (epub_write_error _ _ w2) as [[e|] w3]; [left; eauto|].
  right. eexists _, _, stamp. repeat split. cbn. apply lookup_insert_eq.
Qed.

Lemma create_epub_total (a : article) (st : state) :
  packaging_never_raises →
  ∃ path st', create_epub a st = (Ret path, st').
Proof.
  intros [Hdir Hwrite]. rewrite create_epub_run.
  destruct (datetime_now_timestamp (world st)) as [stamp w1].
  destruct (Hdir w1) as (temp_dir & w2 & ->). cbv zeta.
  destruct (Hwrite (path_join temp_dir (epub_filename (a_title a)))
              (make_book a stamp) w2) as (w3 & ->).
  eauto.
Qed.

(** [send_to_kindle] always returns a dictionary and leaves the queue
    alone. *)
Lemma send_to_kindle_ret (epub_path title : pystr) (st : state) :
  ∃ r st', send_to_kindle cfg epub_path title st = (Ret r, st')
    ∧ article_queue st' = article_queue st.
Proof.
  destruct (configured cfg) eqn:Hcfg.
  - rewrite send_to_kindle_configured by done.
    destruct (files st !! epub_path) as [payload|]; [|eauto].
    destruct (smtp_dialogue _ _ _ _ _ (world st)) as [[e|] w]; eauto.
  - rewrite send_to_kindle_unconfigured by done. eauto.
Qed.

(** With the configuration complete, the packaged file is gone when
    [send_to_kindle] returns, whether or not the mail went out. *)
Lemma send_to_kindle_configured_removes (epub_path title : pystr) (st : state) :
  configured cfg = true →
  ∃ r st', send_to_kindle cfg epub_path title st = (Ret r, st')
    ∧ files st' !! epub_path = None.
Proof.
  intros Hcfg. rewrite send_to_kindle_configured by done.
  destruct (files st !! epub_path) as [payload|] eqn:Hfile; [|eauto].
  destruct (smtp_dialogue _ _ _ _ _ (world st)) as [[e|] w];
    eexists _, _; (split; [reflexivity|]); cbn; apply lookup_delete_eq.
Qed.

(** With the configuration incomplete, the early [return] precedes the
    [try ... finally]: nothing is removed. *)
Lemma send_to_kindle_unconfigured_keeps (epub_path title : pystr) (st : state)
    (payload : epub_book) :
  configured cfg = false →
  files st !! epub_path = Some payload →
  ∃ st', send_to_kindle cfg epub_path title st = (Ret (SendErr config_error), st')
    ∧ files st' !! epub_path = Some payload.
Proof.
  intros Hcfg Hfile. rewrite send_to_kindle_unconfigured by done. eauto.
Qed.

Lemma configured_false_iff :
  configured cfg = false ↔
  opt_truthy (SMTP_USERNAME cfg) = false
  ∨ opt_truthy (SMTP_PASSWORD cfg) = false
  ∨ opt_truthy (KINDLE_EMAIL cfg) = false.
Proof.
  unfold configured. cbn [forallb].
  destruct (opt_truthy (SMTP_USERNAME cfg)), (opt_truthy (SMTP_PASSWORD cfg)),
    (opt_truthy (KINDLE_EMAIL cfg)); cbn; intuition congruence.
Qed.

(** C5: when the destination address, the relay user name or the relay
    password is unset or empty, [send_to_kindle] returns the
    configuration-error dictionary at once; the program state, with the
    outside world in it, is the one it was called in, so no relay
    connection was opened and nothing was sent. *)
Theorem send_to_kindle_config_guard (epub_path title : pystr) (st : state) :
  opt_truthy (SMTP_USERNAME cfg) = false
  ∨ opt_truthy (SMTP_PASSWORD cfg) = false
  ∨ opt_truthy (KINDLE_EMAIL cfg) = false →
  send_to_kindle cfg epub_path title st = (Ret (SendErr config_error), st).
Proof.
  intros Hmissing. apply send_to_kindle_unconfigured.
  by apply configured_false_iff.
Qed.


(** C10: a title with no alphanumeric character, space, hyphen or underscore
    has the empty file-name stem, and [create_epub], when the temporary
    directory and the write succeed, writes the book to a file whose base
    name is [.epub]. *)
Theorem create_epub_bare_extension (a : article) (st : state)
    (stamp temp_dir : pystr) (w1 w2 w3 : World) :
  Forall (λ c, isalnum c = false ∧ c ≠ 32 ∧ c ≠ 45 ∧ c ≠ 95) (a_title a) →
  datetime_now_timestamp (world st) = (stamp, w1) →
  tempfile_mkdtemp w1 = (Ret temp_dir, w2) →
  epub_write_error (path_join temp_dir (py ".epub")) (make_book a stamp) w2
    = (None, w3) →
  filename_stem (a_title a) = []
  ∧ ∃ path st', create_epub a st = (Ret path, st')
      ∧ basename path = py ".epub"
      ∧ files st' !! path = Some (make_book a stamp).
Proof.
  intros Htitle Hstamp Hdir Hwrite.
  assert (Hfilter : List.filter title_char_kept (a_title a) = []).
  { induction Htitle as [|c t (Hal & Hsp & Hhy & Hun) _ IH]; [done|].
    cbn [List.filter]. unfold title_char_kept at 1.
    apply N.eqb_neq in Hsp, Hhy, Hun. by rewrite Hal, Hsp, Hhy, Hun. }
  assert (Hstem : filename_stem (a_title a) = []).
  { unfold filename_stem, safe_title. by rewrite Hfilter. }
  split; [done|].
  rewrite create_epub_run, Hstamp, Hdir. cbv zeta.
  unfold epub_filename. rewrite Hstem. cbn [app]. rewrite Hwrite.
  eexists _, _. split; [reflexivity|]. split.
  - apply basename_path_join. vm_compute. repeat constructor; discriminate.
  - cbn. apply lookup_insert_eq.
Qed.

(** C8: an enqueue that answers with success has appended one item for the
    URL given and left the stored items as they were, so the list is one
    longer; clearing leaves the empty list. *)
Theorem queue_article_appends (url_field : option pystr) (st st' : state)
    (resp : response) :
  queue_article url_field st = (Ret resp, st') →
  body_success (resp_body resp) = Some true →
  (∃ item, article_queue st' = article_queue st ++ [item]
     ∧ url_field = Some (url item))
  ∧ length (article_queue st') = S (length (article_queue st))
  ∧ (∀ i item, article_queue st !! i = Some item →
       article_queue st' !! i = Some item)
  ∧ ∀ st0, ∃ resp0 st0', clear_queue st0 = (Ret resp0, st0')
      ∧ article_queue st0' = [] ∧ length (article_queue st0') = 0%nat.
Proof.
  intros Hrun Hok.
  assert (Happ : ∃ item, article_queue st' = article_queue st ++ [item]
                   ∧ url_field = Some (url item)).
  { rewrite queue_article_run in Hrun. revert Hrun.
    destruct (opt_truthy url_field) eqn:Hurl; cbn [negb].
    - destruct url_field as [u|]; [|done].
      change (default [] (Some u)) with u. cbv zeta.
      destruct (newspaper_article u (world st)) as [[parsed|e] w].
      + destruct (datetime_now_isoformat w) as [stamp w'].
        intros [= <- <-]. cbn. eauto.
      + intros [= <- <-]. done.
    - intros [= <- <-]. done. }
  split; [done|]. destruct Happ as (item & Hq & _).
  split; [rewrite Hq, length_app; simpl; lia|].
  split.
  - intros i it Hi. rewrite Hq. by apply lookup_app_l_Some.
  - intros st0. by eexists _, _.
Qed.

End Stages.

(** ** Flushing the queue *)

Lemma list_remove_None (x : pending_item) (l : list pending_item) :
  x ∉ l → list_remove x l = None.
Proof.
  induction l as [|y l IH]; intros Hx; [done|]. cbn [list_remove].
  apply not_elem_of_cons in Hx as [Hne Hx].
  rewrite decide_False by congruence. by rewrite IH.
Qed.

Lemma list_remove_Some_perm (x : pending_item) (l l' : list pending_item) :
  list_remove x l = Some l' → l ≡ₚ x :: l'.
Proof.
  revert l'. induction l as [|y l IH]; intros l'; [done|]. cbn [list_remove].
  destruct (decide (y = x)) as [->|Hne]; [by intros [= ->]|].
  destruct (list_remove x l) as [l0|]; [|done]. cbn. intros [= <-].
  rewrite (IH l0 eq_refl). apply Permutation_swap.
Qed.

Lemma list_remove_app (x : pending_item) (pre rest : list pending_item) :
  list_remove x (pre ++ x :: rest) = Some (rotate_in x pre ++ rest).
Proof.
  unfold rotate_in. induction pre as [|y pre IH]; cbn [list_remove app].
  - by rewrite decide_True.
  - destruct (decide (y = x)) as [->|Hne].
    + by rewrite <- app_assoc.
    + rewrite IH. destruct (list_remove x pre); cbn; [|done].
      by rewrite <- !app_assoc.
Qed.

Lemma rotate_in_perm (x : pending_item) (pre : list pending_item) :
  rotate_in x pre ≡ₚ pre.
Proof.
  unfold rotate_in. destruct (list_remove x pre) as [pre'|] eqn:Hrm; [|done].
  apply list_remove_Some_perm in Hrm. rewrite Hrm.
  symmetry. apply Permutation_cons_append.
Qed.

Lemma rotate_in_fresh (x : pending_item) (pre : list pending_item) :
  x ∉ pre → rotate_in x pre = pre.
Proof. intros Hx. unfold rotate_in. by rewrite list_remove_None. Qed.

Lemma survivors_length (items : list pending_item) (delivered : list bool) :
  (length delivered ≤ length items)%nat →
  length (survivors items delivered)
  = (length items - delivered_count delivered)%nat
  ∧ (delivered_count delivered ≤ length delivered)%nat.
Proof.
  unfold delivered_count. revert delivered.
  induction items as [|x items IH]; intros [|d delivered] Hlen;
    cbn [length] in Hlen; try (cbn; lia).
  destruct (IH delivered ltac:(lia)) as [IH1 IH2].
  destruct d; cbn [survivors List.filter length]; lia.
Qed.

(** Items behind the flagged ones stay where they are. *)
Lemma survivors_app (items rest : list pending_item) (delivered : list bool) :
  length delivered = length items →
  survivors (items ++ rest) delivered = survivors items delivered ++ rest.
Proof.
  revert delivered.
  induction items as [|x items IH]; intros [|d delivered] Hlen; try done.
  - by destruct rest.
  - injection Hlen as Hlen. cbn [app survivors].
    rewrite (IH delivered Hlen). by destruct d.
Qed.

Section Flush.
Context `{RT : Runtime}.
Variable cfg : config.

(** One iteration: it raises only when packaging does, and then the queue
    is as it was; otherwise it adds one result and removes an entry equal to
    the item exactly when that result reports success. *)
Lemma flush_item_spec (item : pending_item) (results : list item_result)
    (st : state) (pre rest : list pending_item) :
  article_queue st = pre ++ item :: rest →
  match flush_item cfg item results st with
  | (Ret results', st') =>
      ∃ r, results' = results ++ [r]
        ∧ article_queue st'
          = if item_success r then rotate_in item pre ++ rest
            else pre ++ item :: rest
  | (Raise e, st') =>
      article_queue st' = article_queue st
      ∧ ∃ a st1 st2, create_epub a st1 = (Raise e, st2)
  end.
Proof.
  intros Hq. unfold flush_item. unfold mbind at 1, M_bind at 1.
  destruct (extract_article_ret (url item) st) as (d & st1 & -> & Hq1 & _).
  destruct d as [a | err u].
  - unfold mbind at 1, M_bind at 1.
    destruct (create_epub_cases a st1)
      as [(e & st2 & Hce & Hq2) | (path & st2 & stamp & Hce & Hq2 & _)];
      rewrite Hce; [split; [congruence | eauto]|].
    unfold mbind at 1, M_bind at 1.
    destruct (send_to_kindle_ret cfg path (a_title a) st2)
      as (r & st3 & -> & Hq3).
    assert (Hq' : article_queue st3 = pre ++ item :: rest) by congruence.
    destruct r as [message | error]; cbn [send_success send_error].
    + unfold queue_remove. unfold_monad. rewrite Hq', list_remove_app.
      eexists. split; [reflexivity|]. done.
    + unfold_monad. eexists. split; [reflexivity|]. done.
  - unfold_monad. eexists. split; [reflexivity|]. cbn. congruence.
Qed.

(** An iteration that raises leaves the queue as it was. *)
Lemma flush_item_raise_queue (item : pending_item) (results : list item_result)
    (st st' : state) (e : exn) :
  flush_item cfg item results st = (Raise e, st') →
  article_queue st' = article_queue st.
Proof.
  unfold flush_item. unfold mbind at 1, M_bind at 1.
  destruct (extract_article_ret (url item) st) as (d & st1 & -> & Hq1 & _).
  destruct d as [a | err u]; [|by unfold_monad].
  unfold mbind at 1, M_bind at 1.
  destruct (create_epub_cases a st1)
    as [(e1 & st2 & Hce & Hq2) | (path & st2 & stamp & Hce & Hq2 & _)];
    rewrite Hce; [intros [= <- <-]; congruence|].
  unfold mbind at 1, M_bind at 1.
  destruct (send_to_kindle_ret cfg path (a_title a) st2) as (r & st3 & -> & Hq3).
  destruct r as [message | error]; cbn [send_success]; [|by unfold_monad].
  unfold queue_remove. unfold_monad.
  destruct (list_remove item (article_queue st3)); [done|].
  intros [= <- <-]. congruence.
Qed.

(** The loop over [snapshot], started with the queue
    [pre ++ snapshot ++ post]. *)
Lemma flush_loop_spec (snapshot : list pending_item) :
  ∀ (pre post : list pending_item) (results : list item_result) (st : state),
  article_queue st = pre ++ snapshot ++ post →
  match flush_loop cfg snapshot results st with
  | (Ret results', st') =>
      ∃ rs, results' = results ++ rs
        ∧ length rs = length snapshot
        ∧ article_queue st'
          ≡ₚ pre ++ survivors snapshot (item_success <$> rs) ++ post
        ∧ (NoDup (pre ++ snapshot) →
           article_queue st'
           = pre ++ survivors snapshot (item_success <$> rs) ++ post)
  | (Raise e, st') => ∃ a st1 st2, create_epub a st1 = (Raise e, st2)
  end.
Proof.
  induction snapshot as [|item rest IH]; intros pre post results st Hq.
  - cbn. exists []. rewrite app_nil_r. by rewrite Hq.
  - cbn [flush_loop]. unfold mbind, M_bind.
    pose proof (flush_item_spec item results st pre (rest ++ post) Hq) as Hitem.
    destruct (flush_item cfg item results st) as [[results1|e] st1];
      [|by destruct Hitem].
    destruct Hitem as (r & -> & Hq1).
    destruct (item_success r) eqn:Hr.
    + specialize (IH (rotate_in item pre) post (results ++ [r]) st1 Hq1).
      destruct (flush_loop cfg rest (results ++ [r]) st1)
        as [[results'|e] st']; [|done].
      destruct IH as (rs & -> & Hlen & Hperm & Hnodup).
      exists (r :: rs). rewrite <- app_assoc. split; [done|].
      split; [simpl; lia|]. cbn [fmap list_fmap survivors]. rewrite Hr.
      split; [by rewrite Hperm, rotate_in_perm|].
      intros Hnd. apply NoDup_app in Hnd as (Hpre & Hdisj & Hrest).
      assert (Hfresh : item ∉ pre).
      { intros Hin. apply (Hdisj item Hin). left. }
      rewrite rotate_in_fresh in Hnodup by done. apply Hnodup.
      apply NoDup_app. split; [done|].
      split; [|by apply NoDup_cons in Hrest as [_ ?]].
      intros x Hx Hx'. apply (Hdisj x Hx). by right.
    + assert (Hq1' : article_queue st1 = (pre ++ [item]) ++ rest ++ post).
      { by rewrite <- app_assoc. }
      specialize (IH (pre ++ [item]) post (results ++ [r]) st1 Hq1').
      destruct (flush_loop cfg rest (results ++ [r]) st1)
        as [[results'|e] st']; [|done].
      destruct IH as (rs & -> & Hlen & Hperm & Hnodup).
      exists (r :: rs). rewrite <- app_assoc. split; [done|].
      split; [simpl; lia|]. cbn [fmap list_fmap survivors]. rewrite Hr.
      rewrite <- !app_assoc in Hperm. split; [done|].
      intros Hnd. rewrite Hnodup; [by rewrite <- app_assoc|].
      by rewrite <- app_assoc.
Qed.

(** A loop that raises completed a prefix of the snapshot and raised in the
    iteration after it. *)
Lemma flush_loop_raise (snapshot : list pending_item) :
  ∀ (results : list item_result) (st st' : state) (e : exn),
  flush_loop cfg snapshot results st = (Raise e, st') →
  ∃ reached item rest results1 st1,
    snapshot = reached ++ item :: rest
    ∧ flush_loop cfg reached results st = (Ret results1, st1)
    ∧ flush_item cfg item results1 st1 = (Raise e, st').
Proof.
  induction snapshot as [|item rest IH]; intros results st st' e; [done|].
  cbn [flush_loop]. unfold mbind at 1, M_bind at 1.
  destruct (flush_item cfg item results st) as [[results1|e1] st1] eqn:Hitem.
  - intros Hrest.
    destruct (IH _ _ _ _ Hrest)
      as (reached & item' & rest' & results2 & st2 & -> & Hloop & Hraise).
    exists (item :: reached), item', rest', results2, st2.
    split; [done|]. split; [|done].
    cbn [flush_loop]. unfold mbind at 1, M_bind at 1. by rewrite Hitem.
  - intros [= <- <-]. by exists [], item, rest, results, st.
Qed.

Lemma send_queue_run (st : state) :
  send_queue cfg st =
    match article_queue st with
    | [] => (Ret {| status := 400; resp_body := BodyError (py "Queue is empty") |}, st)
    | _ :: _ =>
        match flush_loop cfg (article_queue st) [] st with
        | (Ret results, st') =>
            (Ret {| status := 200;
                    resp_body := BodyFlushed results (length (article_queue st')) |},
             st')
        | (Raise e, st') => (Raise e, st')
        end
    end.
Proof.
  unfold send_queue. unfold mbind at 1, M_bind at 1. unfold read_queue at 1.
  destruct (article_queue st) as [|item q]; [done|].
  unfold_monad. by destruct (flush_loop cfg (item :: q) [] st) as [[results|e] st'].
Qed.

End Flush.

Section FlushTheorems.
Context `{RT : Runtime}.
Variable cfg : config.

(** A result reports success exactly when the three stages succeeded for
    the item: the fetch, the packaging and the mail. *)
Lemma flush_item_success (item : pending_item) (results results' : list item_result)
    (st st' : state) :
  flush_item cfg item results st = (Ret results', st') →
  ∃ r, results' = results ++ [r]
    ∧ (item_success r = true ↔
       ∃ parsed w path st1 message st2,
         newspaper_article (url item) (world st) = (Ret parsed, w)
         ∧ create_epub (article_of (url item) parsed) (upd_world w st)
           = (Ret path, st1)
         ∧ send_to_kindle cfg path (a_title (article_of (url item) parsed)) st1
           = (Ret (SendOk message), st2)).
Proof.
  unfold flush_item. unfold mbind at 1, M_bind at 1.
  rewrite extract_article_run.
  destruct (newspaper_article (url item) (world st)) as [[parsed|e] w].
  - unfold mbind at 1, M_bind at 1.
    destruct (create_epub _ (upd_world w st)) as [[path|e] st1] eqn:Hce; [|done].
    unfold mbind at 1, M_bind at 1.
    destruct (send_to_kindle_ret cfg path (a_title (article_of (url item) parsed)) st1)
      as (r & st2 & Hsend & _).
    rewrite Hsend. destruct r as [message|error]; cbn [send_success send_error].
    + unfold queue_remove. unfold_monad.
      destruct (list_remove item (article_queue st2)); intros [= <- _].
      eexists. split; [reflexivity|]. cbn. split; [|done].
      intros _. by eexists _, _, _, _, _, _.
    + unfold_monad. intros [= <- _].
      eexists. split; [reflexivity|]. cbn. split; [done|].
      intros (? & ? & ? & ? & ? & ? & [= <- <-] & Hce' & Hsend').
      rewrite Hce in Hce'. injection Hce' as <- <-.
      cbn in Hsend, Hsend'. congruence.
  - unfold_monad. intros [= <- _]. eexists. split; [done|]. cbn.
    split; [done|]. by intros (? & ? & ? & ? & ? & ? & ? & _).
Qed.

(** A packaging failure of the first item leaves [send_queue] by the
    exception: the remaining items are not reached. *)
Lemma send_queue_propagates_packaging_error (st st1 : state)
    (item : pending_item) (rest : list pending_item)
    (parsed : parsed_article) (w : World) (e : exn) :
  article_queue st = item :: rest →
  newspaper_article (url item) (world st) = (Ret parsed, w) →
  create_epub (article_of (url item) parsed) (upd_world w st) = (Raise e, st1) →
  send_queue cfg st = (Raise e, st1).
Proof.
  intros Hq Hfetch Hce. rewrite send_queue_run, Hq. cbn [flush_loop].
  unfold mbind at 1, M_bind at 1. unfold flush_item.
  unfold mbind at 1, M_bind at 1. rewrite extract_article_run, Hfetch.
  unfold mbind at 1, M_bind at 1. by rewrite Hce.
Qed.

(** X9: a flush of [N] pending items leaves [N - K] items in the list, [K]
    being the number of results that report success (one result per item
    reached: all [N] of them when the flush answers, those before the
    failing one when packaging raises).  The items left are those whose
    result does not report success, up to order; when the pending items are
    pairwise distinct they are exactly these, in their original order. *)
Theorem send_queue_leaves_undelivered (st st' : state)
    (r : pyresult response) :
  article_queue st ≠ [] →
  send_queue cfg st = (r, st') →
  ∃ results,
    (∃ st1, flush_loop cfg (take (length results) (article_queue st)) [] st
            = (Ret results, st1)
       ∧ article_queue st1 = article_queue st')
    ∧ (length results ≤ length (article_queue st))%nat
    ∧ (∀ resp, r = Ret resp →
         resp_body resp = BodyFlushed results (length (article_queue st'))
         ∧ length results = length (article_queue st))
    ∧ length (article_queue st')
      = (length (article_queue st)
         - delivered_count (item_success <$> results))%nat
    ∧ article_queue st'
      ≡ₚ survivors (article_queue st) (item_success <$> results)
    ∧ (NoDup (article_queue st) →
       article_queue st'
       = survivors (article_queue st) (item_success <$> results)).
Proof.
  intros Hne Hrun. rewrite send_queue_run in Hrun.
  destruct (article_queue st) as [|item q] eqn:Hq; [done|].
  destruct (flush_loop cfg (item :: q) [] st) as [[results|e] st1] eqn:Hloop.
  - injection Hrun as <- <-.
    pose proof (flush_loop_spec cfg (item :: q) [] [] [] st) as Hspec.
    rewrite Hloop, app_nil_r in Hspec.
    destruct (Hspec Hq) as (rs & -> & Hlen & Hperm & Hnodup).
    cbn [app] in *. rewrite app_nil_r in Hperm, Hnodup.
    exists rs. split.
    { exists st1. by rewrite Hlen, firstn_all, Hloop. }
    split; [lia|]. split; [by intros resp [= <-]|].
    split; [|done].
    rewrite Hperm. apply survivors_length. rewrite length_fmap. lia.
  - injection Hrun as <- <-.
    destruct (flush_loop_raise cfg _ _ _ _ _ Hloop)
      as (reached & it & rest & results1 & st2 & Hsnap & Hreached & Hraise).
    apply flush_item_raise_queue in Hraise.
    pose proof (flush_loop_spec cfg reached [] (it :: rest) [] st) as Hspec.
    rewrite Hreached in Hspec. cbn [app] in Hspec. rewrite <- Hsnap in Hspec.
    destruct (Hspec Hq) as (rs & -> & Hlen & Hperm & Hnodup).
    assert (Hflags : length (item_success <$> rs) = length reached).
    { by rewrite length_fmap. }
    rewrite <- survivors_app, <- Hsnap in Hperm, Hnodup by done.
    exists rs. split.
    { exists st2. split; [|done].
      by rewrite Hsnap, Hlen, take_app_length. }
    split; [rewrite Hsnap, length_app; lia|].
    split; [done|]. rewrite Hraise.
    split.
    { rewrite Hperm. apply survivors_length.
      rewrite Hsnap, length_app. lia. }
    split; [done|].
    intros Hnd. apply Hnodup. rewrite Hsnap in Hnd.
    by apply NoDup_app in Hnd as (? & _ & _).
Qed.

(** X4: on a non-empty queue, whenever [send_queue] answers, the answer has
    status 200 and [success] true, whatever the per-item results say (all of
    them may report failure), with one result per item and the length of
    the list left as [remaining_in_queue].  It does answer whenever no
    packaging call raises. *)
Theorem send_queue_success_flag (st : state) :
  article_queue st ≠ [] →
  (∀ resp st', send_queue cfg st = (Ret resp, st') →
     status resp = 200%nat
     ∧ body_success (resp_body resp) = Some true
     ∧ ∃ results,
         resp_body resp = BodyFlushed results (length (article_queue st'))
         ∧ length results = length (article_queue st))
  ∧ (packaging_never_raises →
     ∃ resp st', send_queue cfg st = (Ret resp, st')).
Proof.
  intros Hne. rewrite send_queue_run.
  destruct (article_queue st) as [|item q] eqn:Hq; [done|].
  pose proof (flush_loop_spec cfg (item :: q) [] [] [] st) as Hloop.
  rewrite app_nil_r in Hloop. specialize (Hloop Hq).
  destruct (flush_loop cfg (item :: q) [] st) as [[results|e] st1].
  - destruct Hloop as (rs & -> & Hlen & _). split; [|eauto].
    intros resp st' [= <- <-]. cbn. eauto.
  - split; [done|]. intros Hpack. exfalso.
    destruct Hloop as (a & s1 & s2 & Hraise).
    destruct (create_epub_total a s1 Hpack) as (path & s3 & Hret). congruence.
Qed.

End FlushTheorems.

(** ** The functions on concrete runs *)

Import Scenario.

Lemma scripted_packaging_never_raises fetch smtp_err :
  packaging_never_raises (H := scripted fetch (λ path, None) smtp_err).
Proof. split; [intros w | intros p b w]; cbn; eauto. Qed.

(** C1 (the code departs from the claim): a packaged file exists and
    [SMTP_USERNAME] is unset.  [send_to_kindle] returns the
    configuration-error dictionary and the file is still on disk, because
    the early [return] comes before the [try ... finally] that removes it.
    With the configuration complete the same call leaves no file. *)
Theorem send_to_kindle_unconfigured_leaves_file :
  files (with_packaged steady []) !! packaged_path = Some packaged_book
  ∧ (∃ st',
       send_to_kindle (RT := steady) cfg_unset packaged_path (py "Tide tables")
         (with_packaged steady [])
       = (Ret (SendErr config_error), st')
       ∧ files st' !! packaged_path = Some packaged_book)
  ∧ (∃ r st',
       send_to_kindle (RT := steady) cfg_ok packaged_path (py "Tide tables")
         (with_packaged steady [])
       = (Ret r, st')
       ∧ files st' !! packaged_path = None).
Proof.
  assert (Hfile : files (with_packaged steady []) !! packaged_path
                  = Some packaged_book) by apply lookup_singleton_eq.
  split; [done|]. split.
  - by apply send_to_kindle_unconfigured_keeps.
  - by apply send_to_kindle_configured_removes.
Qed.

(** C2 (the code departs from the claim): two items are pending and writing
    the EPUB of the first one fails.  [send_queue] leaves by that exception
    instead of answering: the second item is never fetched and both stay
    queued.  [send_article] catches the same failure and answers 500. *)
Theorem send_queue_packaging_failure_aborts :
  let st := start (RT := full_disk) [item_a; item_c] [] in
  let st' := (send_queue (RT := full_disk) cfg_ok st).2 in
  send_queue (RT := full_disk) cfg_ok st
  = (Raise (Exn (py "[Errno 28] No space left on device")), st')
  ∧ article_queue st' = [item_a; item_c]
  ∧ world st'
    = [Fetched good_url; TempDir (py "/tmp/tmpx");
       Wrote (py "/tmp/tmpx/Tide tables.epub")]
  ∧ (send_article (RT := full_disk) cfg_ok (Some good_url) st).1
    = Ret {| status := 500;
             resp_body :=
               BodyError
                 (py "Failed to create EPUB: [Errno 28] No space left on device") |}.
Proof. cbv zeta. repeat split; vm_compute; reflexivity. Qed.

(** C3 (the code departs from the claim): the same URL is enqueued, then
    another, then the first again, while the clock reading repeats, so the
    first and third entries are equal.  In the flush the first two fetches
    fail and the third succeeds: results failure, failure, success.
    [article_queue.remove(item)] then deletes the first entry equal to the
    item, which is the first entry and not the third one just delivered.
    The list left is the second entry followed by the delivered third,
    where the undelivered ones in their original order are the first
    followed by the second. *)
Theorem send_queue_removes_other_entry :
  let st0 := start (RT := stalled) [] [] in
  let st1 := (queue_article (RT := stalled) (Some good_url) st0).2 in
  let st2 := (queue_article (RT := stalled) (Some other_url) st1).2 in
  let st3 := (queue_article (RT := stalled) (Some good_url) st2).2 in
  let run := send_queue (RT := stalled) cfg_ok st3 in
  article_queue st3 = [twin; between; twin]
  ∧ run.1
    = Ret {| status := 200;
             resp_body :=
               BodyFlushed
                 [ItemNotExtracted good_url (Some (exn_str download_failed));
                  ItemNotExtracted other_url (Some (exn_str download_failed));
                  ItemSent (py "Tide tables") true None] 2 |}
  ∧ article_queue run.2 = [between; twin]
  ∧ survivors (article_queue st3) [false; false; true] = [twin; between]
  ∧ article_queue run.2 ≠ [twin; between].
Proof.
  cbv zeta. repeat split; try (vm_compute; reflexivity).
  vm_compute. discriminate.
Qed.

(** C9 (the code departs from the claim): one item is pending and writing
    its EPUB fails.  The per-item failure makes the whole flush fail:
    [send_queue] leaves by the exception of [create_epub], so there is no
    answer at all, with [success] true or otherwise.  When the per-item
    failure is one of extraction, the answer is 200 with [success] true. *)
Theorem send_queue_no_answer_on_packaging_failure :
  let st := start (RT := full_disk) [item_a] [] in
  article_queue st ≠ []
  ∧ (send_queue (RT := full_disk) cfg_ok st).1
    = Raise (Exn (py "[Errno 28] No space left on device"))
  ∧ (∀ resp st', send_queue (RT := full_disk) cfg_ok st ≠ (Ret resp, st'))
  ∧ (send_queue (RT := mute) cfg_ok (start (RT := mute) [item_a] [])).1
    = Ret {| status := 200;
             resp_body := BodyFlushed [ItemNotExtracted good_url (Some [])] 1 |}.
Proof.
  cbv zeta.
  assert (Hrun : (send_queue (RT := full_disk) cfg_ok
                    (start (RT := full_disk) [item_a] [])).1
                 = Raise (Exn (py "[Errno 28] No space left on device")))
    by (vm_compute; reflexivity).
  split; [discriminate|]. split; [exact Hrun|]. split.
  - intros resp st' Heq. rewrite Heq in Hrun. discriminate.
  - vm_compute. reflexivity.
Qed.


(** C4 fails as stated: the fetcher raises an exception whose message is
    empty; the dictionary returned has [success] false and the empty string
    as [error]. *)
Lemma extract_article_empty_error_text :
  ¬ (∃ d st',
       extract_article (RT := mute) good_url (start (RT := mute) [] [])
       = (Ret d, st')
       ∧ (ad_success d = true
          ∨ (ad_success d = false ∧ ad_url d = good_url
             ∧ ∃ msg, ad_error d = Some msg ∧ msg ≠ []))).
Proof.
  intros (d & st' & Hrun & Hd). rewrite extract_article_run in Hrun.
  cbn in Hrun. injection Hrun as <- _.
  destruct Hd as [Hd | (_ & _ & msg & [= <-] & Hne)]; [discriminate | done].
Qed.

Lemma send_queue_leaves_undelivered_witness :
  let st := start (RT := steady) [item_a; item_b] [] in
  let st' := (send_queue (RT := steady) cfg_ok st).2 in
  NoDup (article_queue st)
  ∧ ∃ results,
      item_success <$> results = [true; false]
      ∧ article_queue st' = [item_b]
      ∧ article_queue st'
        = survivors (article_queue st) (item_success <$> results)
      ∧ length (article_queue st')
        = (2 - delivered_count (item_success <$> results))%nat.
Proof.
  cbv zeta.
  set (st := start (RT := steady) [item_a; item_b] []).
  set (resp := {| status := 200;
                  resp_body :=
                    BodyFlushed
                      [ItemSent (py "Tide tables") true None;
                       ItemNotExtracted down_url
                         (Some (exn_str download_failed))] 1 |}).
  assert (Hnd : NoDup (article_queue st)).
  { apply (bool_decide_unpack _). vm_compute. exact I. }
  assert (Hne : article_queue st ≠ []) by discriminate.
  assert (Hrun : send_queue (RT := steady) cfg_ok st
                 = (Ret resp, (send_queue (RT := steady) cfg_ok st).2)).
  { vm_compute. reflexivity. }
  destruct (send_queue_leaves_undelivered cfg_ok st _ (Ret resp) Hne Hrun)
    as (results & _ & _ & Hbody & Hcount & Hperm & Hsame).
  destruct (Hbody resp eq_refl) as [Hresults _].
  split; [exact Hnd|]. exists results.
  injection Hresults as <-.
  split; [reflexivity|]. split; [vm_compute; reflexivity|].
  split; [exact (Hsame Hnd) | exact Hcount].
Defined.

Lemma send_to_kindle_config_guard_witness :
  opt_truthy (SMTP_USERNAME cfg_unset) = false
  ∧ send_to_kindle (RT := steady) cfg_unset packaged_path (py "Tide tables")
      (with_packaged steady [Fetched good_url])
    = (Ret (SendErr config_error), with_packaged steady [Fetched good_url]).
Proof.
  split; [reflexivity|].
  apply send_to_kindle_config_guard. left. reflexivity.
Defined.


Lemma create_epub_bare_extension_witness :
  Forall (λ c, ascii_isalnum c = false ∧ c ≠ 32 ∧ c ≠ 45 ∧ c ≠ 95)
    (a_title punctuated)
  ∧ filename_stem (RT := steady) (a_title punctuated) = []
  ∧ ∃ path st',
      create_epub (RT := steady) punctuated (start (RT := steady) [] [])
      = (Ret path, st')
      ∧ basename path = py ".epub"
      ∧ files st' !! path = Some (make_book punctuated (stamp_of [])).
Proof.
  assert (Htitle : Forall (λ c, ascii_isalnum c = false ∧ c ≠ 32 ∧ c ≠ 45 ∧ c ≠ 95)
                     (a_title punctuated)).
  { repeat constructor; discriminate. }
  split; [exact Htitle|].
  apply (create_epub_bare_extension (RT := steady) punctuated
           (start (RT := steady) [] [])
           (stamp_of []) (py "/tmp/tmp") [] [TempDir (py "/tmp/tmp")]
           [TempDir (py "/tmp/tmp"); Wrote (py "/tmp/tmp/.epub")]);
    [exact Htitle | reflexivity | reflexivity | reflexivity].
Defined.

Lemma queue_article_appends_witness :
  let st := start (RT := steady) [item_b] [] in
  let run := queue_article (RT := steady) (Some good_url) st in
  run.1 = Ret {| status := 200;
                 resp_body :=
                   BodyQueued (py "Added " ++ dq ++ py "Tide tables" ++ dq
                               ++ py " to queue") 2 |}
  ∧ (∃ item, article_queue run.2 = [item_b] ++ [item]
       ∧ Some good_url = Some (url item))
  ∧ length (article_queue run.2) = 2%nat
  ∧ article_queue (clear_queue (RT := steady) run.2).2 = [].
Proof.
  cbv zeta.
  set (st := start (RT := steady) [item_b] []).
  set (resp := {| status := 200;
                  resp_body :=
                    BodyQueued (py "Added " ++ dq ++ py "Tide tables" ++ dq
                                ++ py " to queue") 2 |}).
  assert (Hrun : queue_article (RT := steady) (Some good_url) st
                 = (Ret resp, (queue_article (RT := steady) (Some good_url) st).2)).
  { vm_compute. reflexivity. }
  destruct (queue_article_appends (Some good_url) st _ resp Hrun eq_refl)
    as (Happ & Hlen & _ & Hclear).
  split; [by rewrite Hrun|]. split; [exact Happ|]. split; [exact Hlen|].
  reflexivity.
Defined.

Lemma send_queue_success_flag_witness :
  let st := start (RT := mute) [item_a; item_b] [] in
  article_queue st ≠ []
  ∧ ∃ resp st' results,
      send_queue (RT := mute) cfg_ok st = (Ret resp, st')
      ∧ status resp = 200%nat
      ∧ body_success (resp_body resp) = Some true
      ∧ resp_body resp = BodyFlushed results (length (article_queue st'))
      ∧ item_success <$> results = [false; false].
Proof.
  cbv zeta.
  set (st := start (RT := mute) [item_a; item_b] []).
  assert (Hne : article_queue st ≠ []) by discriminate.
  split; [exact Hne|].
  destruct (send_queue_success_flag cfg_ok st Hne) as [Hflag Htotal].
  destruct (Htotal (scripted_packaging_never_raises _ _))
    as (resp & st' & Hrun).
  destruct (Hflag resp st' Hrun) as (Hstatus & Hok & results & Hbody & Hlen).
  exists resp, st', results. repeat split; try done.
  assert (Heval : send_queue (RT := mute) cfg_ok st
                  = (Ret {| status := 200;
                            resp_body :=
                              BodyFlushed
                                [ItemNotExtracted good_url (Some []);
                                 ItemNotExtracted down_url (Some [])] 2 |},
                     (send_queue (RT := mute) cfg_ok st).2)).
  { vm_compute. reflexivity. }
  rewrite Heval in Hrun. injection Hrun as <- _.
  injection Hbody as <- _. reflexivity.
Defined.

(** * Further properties of the handlers and stages *)

Section Handlers.
Context `{RT : Runtime}.
Variable cfg : config.

Lemma send_article_run (url_field : option pystr) (st : state) :
  send_article cfg url_field st =
    if negb (opt_truthy url_field) then (Ret url_required, st)
    else
      let url := default [] url_field in
      match newspaper_article url (world st) with
      | (Raise e, w) =>
          (Ret {| status := 400;
                  resp_body := BodyArticle (ArticleErr (exn_str e) url) |},
           upd_world w st)
      | (Ret parsed, w) =>
          let a := article_of url parsed in
          match create_epub a (upd_world w st) with
          | (Raise e, st1) =>
              (Ret {| status := 500;
                      resp_body :=
                        BodyError (py "Failed to create EPUB: " ++ exn_str e) |},
               st1)
          | (Ret epub_path, st1) =>
              match send_to_kindle cfg epub_path (a_title a) st1 with
              | (Ret (SendOk message), st2) =>
                  (Ret {| status := 200;
                          resp_body := BodySent message (a_title a) |}, st2)
              | (Ret (SendErr error), st2) =>
                  (Ret {| status := 500;
                          resp_body := BodySendResult (SendErr error) |}, st2)
              | (Raise e, st2) => (Raise e, st2)
              end
          end
      end.
Proof.
  unfold send_article. destruct (negb (opt_truthy url_field)); [done|].
  cbv zeta. unfold mbind at 1, M_bind at 1. rewrite extract_article_run.
  destruct (newspaper_article _ (world st)) as [[parsed|e] w]; [|done].
  unfold mbind at 1, M_bind at 1. unfold try_except at 1.
  unfold mbind at 1, M_bind at 1.
  destruct (create_epub _ (upd_world w st)) as [[epub_path|e] st1]; [|done].
  unfold mret at 1, M_ret at 1. unfold mbind at 1, M_bind at 1.
  by destruct (send_to_kindle cfg epub_path _ st1) as [[[message|error]|e] st2].
Qed.

(** X1: a request without a URL (the key absent, or the empty string) gets
    status 400 with the error "URL is required" from [send_article],
    [queue_article] and [preview_article] alike, and nothing else happens:
    no fetch, no change of the queue or the files. *)
Theorem handlers_require_url (url_field : option pystr) (st : state) :
  url_field = None ∨ url_field = Some [] →
  send_article cfg url_field st = (Ret url_required, st)
  ∧ queue_article url_field st = (Ret url_required, st)
  ∧ preview_article url_field st = (Ret url_required, st).
Proof.
  intros Hurl.
  assert (Hfalse : opt_truthy url_field = false) by (by destruct Hurl as [-> | ->]).
  rewrite send_article_run, queue_article_run. unfold preview_article.
  by rewrite Hfalse.
Qed.

(** [create_epub] adds the book under the path it returns and changes no
    other file; when it raises, no file changed. *)
Lemma create_epub_files (a : article) (st : state) :
  match create_epub a st with
  | (Ret path, st') =>
      ∃ stamp, files st' = <[path := make_book a stamp]> (files st)
        ∧ article_queue st' = article_queue st
  | (Raise e, st') =>
      files st' = files st ∧ article_queue st' = article_queue st
  end.
Proof.
  rewrite create_epub_run.
  destruct (datetime_now_timestamp (world st)) as [stamp w1].
  destruct (tempfile_mkdtemp w1) as [[temp_dir|e] w2]; [|done]. cbv zeta.
  destruct (epub_write_error _ _ w2) as [[e|] w3]; [done|]. by exists stamp.
Qed.

(** With the configuration complete, [send_to_kindle] leaves the files
    without the one it was given. *)
Lemma send_to_kindle_files (epub_path title : pystr) (st : state) :
  configured cfg = true →
  files (send_to_kindle cfg epub_path title st).2 = delete epub_path (files st).
Proof.
  intros Hcfg. rewrite send_to_kindle_configured by done.
  destruct (files st !! epub_path) as [payload|] eqn:Hfile.
  - by destruct (smtp_dialogue _ _ _ _ _ (world st)) as [[e|] w].
  - cbn. by rewrite delete_id.
Qed.

(** X2: [send_article] from the request on.  For a body that is a JSON
    object (its [url] absent, null or a string) it does not raise: it
    answers 200 with [success] true, or 400 or 500 with [success] false, and
    it leaves the queue as it was.  For any other request the two lines that
    read it raise, and the handler leaves by that exception with nothing
    done. *)
Theorem send_article_request_outcomes (body : request_json) (st : state) :
  match body with
  | JsonObject url_field =>
      ∃ resp st', send_article_request cfg body st = (Ret resp, st')
        ∧ article_queue st' = article_queue st
        ∧ ((status resp = 200%nat ∧ body_success (resp_body resp) = Some true)
           ∨ ((status resp = 400%nat ∨ status resp = 500%nat)
              ∧ body_success (resp_body resp) = Some false))
  | NotAnObject e => send_article_request cfg body st = (Raise e, st)
  end.
Proof.
  destruct body as [url_field|e]; [|done].
  change (send_article_request cfg (JsonObject url_field) st)
    with (send_article cfg url_field st).
  rewrite send_article_run.
  destruct (negb (opt_truthy url_field)).
  { eexists _, _. split; [reflexivity|]. split; [done|]. right. by split; [left|]. }
  cbv zeta.
  destruct (newspaper_article _ (world st)) as [[parsed|e] w].
  2:{ eexists _, _. split; [reflexivity|]. split; [done|]. right. by split; [left|]. }
  pose proof (create_epub_files (article_of (default [] url_field) parsed)
                (upd_world w st)) as Hce.
  destruct (create_epub _ (upd_world w st)) as [[epub_path|e] st1].
  2:{ destruct Hce as [_ Hq]. eexists _, _. split; [reflexivity|].
      split; [done|]. right. by split; [right|]. }
  destruct Hce as (stamp & _ & Hq). cbn in Hq.
  destruct (send_to_kindle_ret cfg epub_path
              (a_title (article_of (default [] url_field) parsed)) st1)
    as (r & st2 & -> & Hq2).
  destruct r as [message|error]; eexists _, _; (split; [reflexivity|]);
    (split; [congruence|]); [left; by split | right; split; [by right | done]].
Qed.

(** X3: when the fetch fails, [send_article] answers 400 with the failure
    dictionary of [extract_article] (the error text and the URL), packages
    nothing and mails nothing: the files and the queue are unchanged and
    the outside world is as the fetch left it. *)
Theorem send_article_fetch_failure (url : pystr) (st : state) (e : exn)
    (w : World) :
  url ≠ [] →
  newspaper_article url (world st) = (Raise e, w) →
  send_article cfg (Some url) st
  = (Ret {| status := 400;
            resp_body := BodyArticle (ArticleErr (exn_str e) url) |},
     upd_world w st).
Proof.
  intros Hurl Hfetch. rewrite send_article_run.
  destruct url as [|c url]; [done|]. cbn [opt_truthy str_truthy negb].
  change (default [] (Some (c :: url))) with (c :: url). cbv zeta.
  by rewrite Hfetch.
Qed.

(** The two ways [queue_article] ends. *)
Lemma queue_article_cases (url_field : option pystr) (st : state) :
  ∃ resp st', queue_article url_field st = (Ret resp, st')
    ∧ files st' = files st
    ∧ ((status resp = 200%nat
        ∧ ∃ item,
            article_queue st' = article_queue st ++ [item]
            ∧ url_field = Some (url item)
            ∧ title item ≠ []
            ∧ resp_body resp
              = BodyQueued (py "Added " ++ dq ++ title item ++ dq ++ py " to queue")
                  (length (article_queue st')))
       ∨ (status resp = 400%nat
          ∧ body_success (resp_body resp) = Some false
          ∧ article_queue st' = article_queue st)).
Proof.
  rewrite queue_article_run.
  destruct url_field as [[|c u]|]; cbn [opt_truthy str_truthy negb];
    try (eexists _, _; split; [reflexivity|]; split; [done|]; by right).
  change (default [] (Some (c :: u))) with (c :: u). cbv zeta.
  destruct (newspaper_article (c :: u) (world st)) as [[parsed|e] w].
  - destruct (datetime_now_isoformat w) as [stamp w'].
    eexists _, _. split; [reflexivity|]. split; [done|]. left.
    split; [done|]. eexists. split; [reflexivity|]. split; [done|].
    split; [|done]. cbn. by destruct (p_title parsed).
  - eexists _, _. split; [reflexivity|]. split; [done|]. by right.
Qed.

(** X5: [queue_article] from the request on.  For a body that is a JSON
    object (its [url] absent, null or a string) it does not raise and does
    not touch the files.  Either it answers 200, having appended one item
    that carries the URL given and the extracted, non-empty title, and the
    [queue_length] it reports is the length of the list afterwards; or it
    answers 400 with [success] false and the list is as it was.  For any
    other request the two lines that read it raise, and the handler leaves
    by that exception with nothing done. *)
Theorem queue_article_request_outcomes (body : request_json) (st : state) :
  match body with
  | JsonObject url_field =>
      ∃ resp st', queue_article_request body st = (Ret resp, st')
        ∧ files st' = files st
        ∧ ((status resp = 200%nat
            ∧ ∃ item,
                article_queue st' = article_queue st ++ [item]
                ∧ url_field = Some (url item)
                ∧ title item ≠ []
                ∧ resp_body resp
                  = BodyQueued
                      (py "Added " ++ dq ++ title item ++ dq ++ py " to queue")
                      (length (article_queue st')))
           ∨ (status resp = 400%nat
              ∧ body_success (resp_body resp) = Some false
              ∧ article_queue st' = article_queue st))
  | NotAnObject e => queue_article_request body st = (Raise e, st)
  end.
Proof.
  destruct body as [url_field|e]; [|done].
  change (queue_article_request (JsonObject url_field) st)
    with (queue_article url_field st).
  apply queue_article_cases.
Qed.

(** X6: the queue does not deduplicate.  Two enqueues of one URL that both
    answer 200 leave two entries for it at the end of the list, in the order
    of the calls, and [get_queue] then lists the stored items followed by
    these two, with the count two higher. *)
Theorem queue_article_twice (u : pystr) (st st1 st2 : state)
    (resp1 resp2 : response) :
  queue_article (Some u) st = (Ret resp1, st1) →
  status resp1 = 200%nat →
  queue_article (Some u) st1 = (Ret resp2, st2) →
  status resp2 = 200%nat →
  ∃ item1 item2,
    url item1 = u ∧ url item2 = u
    ∧ get_queue st2
      = (Ret {| status := 200;
                resp_body :=
                  BodyQueue (article_queue st ++ [item1; item2])
                    (length (article_queue st) + 2) |},
         st2).
Proof.
  intros Hrun1 Hok1 Hrun2 Hok2.
  destruct (queue_article_cases (Some u) st)
    as (r1 & s1 & Hr1 & _ & [(_ & i1 & Hq1 & Hu1 & _) | (H400 & _)]);
    rewrite Hrun1 in Hr1; injection Hr1 as <- <-; [|congruence].
  destruct (queue_article_cases (Some u) st1)
    as (r2 & s2 & Hr2 & _ & [(_ & i2 & Hq2 & Hu2 & _) | (H400 & _)]);
    rewrite Hrun2 in Hr2; injection Hr2 as <- <-; [|congruence].
  exists i1, i2. injection Hu1 as Hu1. injection Hu2 as Hu2.
  split; [done|]. split; [done|].
  unfold get_queue, read_queue. unfold_monad.
  by rewrite Hq2, Hq1, <- app_assoc, !length_app.
Qed.

(** X7: after [clear_queue] the queue is empty whatever it held, the files
    and the outside world are as before, [get_queue] answers with the empty
    list and count 0, and [send_queue] answers 400 "Queue is empty" without
    fetching anything. *)
Theorem clear_queue_then_flush (st : state) :
  let st0 := (clear_queue st).2 in
  (clear_queue st).1
  = Ret {| status := 200; resp_body := BodyCleared (py "Queue cleared") |}
  ∧ files st0 = files st ∧ world st0 = world st
  ∧ get_queue st0
    = (Ret {| status := 200; resp_body := BodyQueue [] 0 |}, st0)
  ∧ send_queue cfg st0
    = (Ret {| status := 400; resp_body := BodyError (py "Queue is empty") |},
       st0).
Proof. cbv zeta. by rewrite send_queue_run. Qed.


(** X10: [health_check] answers 200 with status "ok" and two flags, and
    changes nothing.  Both flags are true exactly when [send_to_kindle]
    passes its configuration guard; when one is false every
    [send_to_kindle] call returns the configuration error. *)
Theorem health_check_matches_guard (st : state) :
  ∃ kindle smtp,
    health_check cfg st
    = (Ret {| status := 200;
              resp_body := BodyHealth (py "ok") kindle smtp |}, st)
    ∧ (kindle = true ↔ ∃ s, KINDLE_EMAIL cfg = Some s ∧ s ≠ [])
    ∧ (kindle && smtp = configured cfg)
    ∧ (kindle && smtp = false →
       ∀ epub_path title st1,
         send_to_kindle cfg epub_path title st1
         = (Ret (SendErr config_error), st1)).
Proof.
  eexists _, _. split; [reflexivity|].
  assert (Hflags : opt_truthy (KINDLE_EMAIL cfg)
                   && (opt_truthy (SMTP_USERNAME cfg)
                       && opt_truthy (SMTP_PASSWORD cfg))
                   = configured cfg).
  { unfold configured. cbn [forallb].
    by destruct (opt_truthy (KINDLE_EMAIL cfg)),
      (opt_truthy (SMTP_USERNAME cfg)), (opt_truthy (SMTP_PASSWORD cfg)). }
  split; [|split; [done|]].
  - destruct (KINDLE_EMAIL cfg) as [[|c s]|]; cbn; split; try done.
    + by intros (s & [= <-] & Hs).
    + intros _. by eexists.
    + by intros (s & [=] & _).
  - rewrite Hflags. intros Hcfg epub_path title st1.
    by apply send_to_kindle_unconfigured.
Qed.

End Handlers.

Section StagesMore.
Context `{RT : Runtime}.
Variable cfg : config.

(** X11: whenever [send_to_kindle] returns a dictionary, the queue is as
    it was, and the dictionary reports success exactly when the
    configuration is complete, the file exists and the relay dialogue
    raised nothing; the message then is [Sent "<title>" to Kindle]. *)
Theorem send_to_kindle_success_iff (epub_path title : pystr) (st st' : state)
    (r : send_result) :
  send_to_kindle cfg epub_path title st = (Ret r, st') →
  article_queue st' = article_queue st
  ∧ (send_success r = true ↔
     configured cfg = true
     ∧ ∃ payload w,
         files st !! epub_path = Some payload
         ∧ smtp_dialogue (SMTP_SERVER cfg) (SMTP_PORT cfg)
             (default [] (SMTP_USERNAME cfg)) (default [] (SMTP_PASSWORD cfg))
             (make_message cfg epub_path title payload) (world st)
           = (None, w))
  ∧ (send_success r = true →
     r = SendOk (py "Sent " ++ dq ++ title ++ dq ++ py " to Kindle")).
Proof.
  destruct (configured cfg) eqn:Hcfg.
  - rewrite send_to_kindle_configured by done.
    destruct (files st !! epub_path) as [payload|] eqn:Hfile.
    + destruct (smtp_dialogue _ _ _ _ _ (world st)) as [[e|] w] eqn:Hsmtp;
        intros [= <- <-]; (split; [done|]); cbn.
      * split; [|done]. split; [done|].
        intros (_ & p & w' & [= <-] & Hs). congruence.
      * split; [|done]. split; [|done]. intros _. split; [done|]. eauto.
    + intros [= <- <-]. split; [done|]. cbn.
      split; [|done]. split; [done|]. by intros (_ & p & w' & [=] & _).
  - rewrite send_to_kindle_unconfigured by done.
    intros [= <- <-]. split; [done|]. cbn.
    split; [|done]. split; [done|]. by intros [[=] _].
Qed.

(** X12: with the configuration complete, a failure is reported as a
    dictionary with [success] false.  If the file is missing, no relay
    dialogue takes place: the state, outside world included, is unchanged.
    If the relay dialogue raises [e], the error text is [str(e)] and the
    file has been removed all the same. *)
Theorem send_to_kindle_failures (epub_path title : pystr) (st : state) :
  configured cfg = true →
  (files st !! epub_path = None →
   ∃ error, send_to_kindle cfg epub_path title st = (Ret (SendErr error), st))
  ∧ (∀ payload e w,
       files st !! epub_path = Some payload →
       smtp_dialogue (SMTP_SERVER cfg) (SMTP_PORT cfg)
         (default [] (SMTP_USERNAME cfg)) (default [] (SMTP_PASSWORD cfg))
         (make_message cfg epub_path title payload) (world st)
       = (Some e, w) →
       ∃ st', send_to_kindle cfg epub_path title st
              = (Ret (SendErr (exn_str e)), st')
         ∧ files st' !! epub_path = None
         ∧ world st' = w).
Proof.
  intros Hcfg. split.
  - intros Hfile. rewrite send_to_kindle_configured, Hfile by done. eauto.
  - intros payload e w Hfile Hsmtp.
    rewrite send_to_kindle_configured, Hfile, Hsmtp by done.
    eexists. split; [reflexivity|]. split; [|done]. cbn. apply lookup_delete_eq.
Qed.

(** X13: when the library returns an article, [extract_article] gives a
    success dictionary with the URL it was called with, the text and the
    authors of the article, and a title that is never empty: the article's
    own, or "Untitled Article" when the article has none. *)
Theorem extract_article_title_default (url : pystr) (st : state)
    (parsed : parsed_article) (w : World) :
  newspaper_article url (world st) = (Ret parsed, w) →
  ∃ a, extract_article url st = (Ret (ArticleOk a), upd_world w st)
    ∧ a_title a ≠ []
    ∧ (p_title parsed ≠ [] → a_title a = p_title parsed)
    ∧ (p_title parsed = [] → a_title a = py "Untitled Article")
    ∧ a_url a = url
    ∧ a_text a = p_text parsed
    ∧ a_authors a = p_authors parsed.
Proof.
  intros Hfetch. rewrite extract_article_run, Hfetch.
  eexists. split; [reflexivity|]. cbn.
  destruct (p_title parsed) as [|c t]; cbn; repeat split; try done.
Qed.

(** The file name holds no slash when [/] is not alphanumeric. *)
Lemma epub_filename_no_slash (title : pystr) :
  isalnum slash = false →
  Forall (λ c, c ≠ slash) (epub_filename title).
Proof.
  intros Hslash. unfold epub_filename. apply Forall_app. split.
  - unfold filename_stem, slice_to. apply Forall_take.
    eapply Forall_impl; [apply safe_title_chars|].
    intros c Hc ->. unfold title_char_kept in Hc. rewrite Hslash in Hc.
    vm_compute in Hc. discriminate.
  - vm_compute. repeat constructor; discriminate.
Qed.

(** X15: provided [/] is not alphanumeric, the file [create_epub] writes
    is named after the title: its base name is the sanitized stem followed
    by [.epub], at most 55 characters, and this is also the file name of
    the attachment in the mail [send_to_kindle] builds for that path. *)
Theorem create_epub_file_name (a : article) (st st' : state) (path : pystr)
    (title : pystr) (payload : epub_book) :
  isalnum slash = false →
  create_epub a st = (Ret path, st') →
  basename path = filename_stem (a_title a) ++ py ".epub"
  ∧ (length (basename path) ≤ 55)%nat
  ∧ att_filename (make_message cfg path title payload) = basename path
  ∧ is_Some (files st' !! path).
Proof.
  intros Hslash Hrun. rewrite create_epub_run in Hrun. revert Hrun.
  destruct (datetime_now_timestamp (world st)) as [stamp w1].
  destruct (tempfile_mkdtemp w1) as [[temp_dir|e] w2]; [|done]. cbv zeta.
  destruct (epub_write_error _ _ w2) as [[e|] w3]; [done|].
  intros [= <- <-]. cbn [att_filename make_message].
  rewrite basename_path_join by (by apply epub_filename_no_slash).
  split; [done|]. split.
  - unfold epub_filename, filename_stem, slice_to.
    rewrite length_app, length_take. vm_compute (length (py ".epub")). lia.
  - split; [done|]. cbn. rewrite lookup_insert_eq. eauto.
Qed.

End StagesMore.

Section FlushMore.
Context `{RT : Runtime}.
Variable cfg : config.

Lemma flush_item_unconfigured (item : pending_item)
    (results : list item_result) (st : state) :
  configured cfg = false →
  match flush_item cfg item results st with
  | (Ret results', st') =>
      article_queue st' = article_queue st
      ∧ ∃ r, results' = results ++ [r] ∧ item_success r = false
  | (Raise e, st') => article_queue st' = article_queue st
  end.
Proof.
  intros Hcfg. unfold flush_item. unfold mbind at 1, M_bind at 1.
  destruct (extract_article_ret (url item) st) as (d & st1 & -> & Hq1 & _).
  destruct d as [a | err u].
  - unfold mbind at 1, M_bind at 1.
    destruct (create_epub_cases a st1)
      as [(e & st2 & Hce & Hq2) | (path & st2 & stamp & Hce & Hq2 & _)];
      rewrite Hce; [congruence|].
    unfold mbind at 1, M_bind at 1.
    rewrite send_to_kindle_unconfigured by done. cbn [send_success send_error].
    unfold_monad. split; [congruence|]. by eexists.
  - unfold_monad. split; [done|]. by eexists.
Qed.

Lemma flush_loop_unconfigured (snapshot : list pending_item) :
  ∀ (results : list item_result) (st : state),
  configured cfg = false →
  match flush_loop cfg snapshot results st with
  | (Ret results', st') =>
      article_queue st' = article_queue st
      ∧ ∃ rs, results' = results ++ rs
          ∧ length rs = length snapshot
          ∧ Forall (λ r, item_success r = false) rs
  | (Raise e, st') => article_queue st' = article_queue st
  end.
Proof.
  induction snapshot as [|item rest IH]; intros results st Hcfg.
  - cbn. split; [done|]. exists []. by rewrite app_nil_r.
  - cbn [flush_loop]. unfold mbind, M_bind.
    pose proof (flush_item_unconfigured item results st Hcfg) as Hitem.
    destruct (flush_item cfg item results st) as [[results1|e] st1]; [|done].
    destruct Hitem as (Hq1 & r & -> & Hr).
    specialize (IH (results ++ [r]) st1 Hcfg).
    destruct (flush_loop cfg rest (results ++ [r]) st1) as [[results'|e] st'];
      [|congruence].
    destruct IH as (Hq & rs & -> & Hlen & Hall).
    split; [congruence|]. exists (r :: rs). rewrite <- app_assoc.
    split; [done|]. split; [simpl; lia|]. by constructor.
Qed.

(** X8: with the configuration incomplete a flush removes nothing.  Whether
    [send_queue] answers or packaging raises, the queue afterwards is the
    queue before; when it answers, there is one result per item, every one
    of them reports failure, and [remaining_in_queue] is the full
    length. *)
Theorem send_queue_unconfigured_keeps_queue (st st' : state)
    (r : pyresult response) :
  configured cfg = false →
  article_queue st ≠ [] →
  send_queue cfg st = (r, st') →
  article_queue st' = article_queue st
  ∧ ∀ resp, r = Ret resp →
      status resp = 200%nat
      ∧ ∃ results,
          resp_body resp = BodyFlushed results (length (article_queue st))
          ∧ length results = length (article_queue st)
          ∧ Forall (λ x, item_success x = false) results.
Proof.
  intros Hcfg Hne Hrun. rewrite send_queue_run in Hrun.
  destruct (article_queue st) as [|item q] eqn:Hq; [done|].
  pose proof (flush_loop_unconfigured (item :: q) [] st Hcfg) as Hloop.
  destruct (flush_loop cfg (item :: q) [] st) as [[results|e] st1];
    injection Hrun as <- <-.
  - destruct Hloop as (Hq' & rs & -> & Hlen & Hall).
    split; [congruence|]. intros resp [= <-]. split; [done|].
    exists rs. cbn. rewrite Hq', Hq. by repeat split.
  - split; [congruence|]. by intros resp [=].
Qed.

End FlushMore.

(** ** Titles and paragraphs *)

Lemma rstrip_id (s : pystr) :
  (∀ c, last s = Some c → isspace c = false) → rstrip s = s.
Proof.
  intros Hlast. unfold rstrip.
  destruct s as [|c0 s0] using rev_ind; [done|].
  rewrite rev_app_distr. cbn [rev app lstrip].
  rewrite (Hlast c0) by apply last_snoc.
  by rewrite <- (rev_involutive s0), <- rev_unit, !rev_involutive.
Qed.

(** X16: a title that is already safe passes through unchanged.  If every
    character is alphanumeric, a space, a hyphen or an underscore, the last
    one is not whitespace and there are at most 50 of them, the stem is the
    title itself and the file is named [<title>.epub]. *)
Theorem filename_stem_of_safe_title `{Runtime} (title : pystr) :
  Forall (λ c, isalnum c = true ∨ c = 32 ∨ c = 45 ∨ c = 95) title →
  (∀ c, last title = Some c → isspace c = false) →
  (length title ≤ 50)%nat →
  filename_stem title = title
  ∧ epub_filename title = title ++ py ".epub".
Proof.
  intros Hchars Hlast Hlen.
  assert (Hstem : filename_stem title = title).
  { unfold filename_stem, slice_to, safe_title.
    rewrite forallb_filter_id.
    - rewrite rstrip_id by done. by apply take_ge.
    - apply forallb_forall. intros c Hc. apply title_char_kept_spec.
      rewrite Forall_forall in Hchars. apply Hchars. by apply list_elem_of_In. }
  split; [done|]. unfold epub_filename. by rewrite Hstem.
Qed.

Lemma forallb_false_Exists (f : N → bool) (s : pystr) :
  forallb f s = false → Exists (λ c, f c = false) s.
Proof.
  induction s as [|c s IH]; [done|]. cbn [forallb].
  destruct (f c) eqn:Hc; [|by constructor]. intros Hs. right. by apply IH.
Qed.

(** X17: nothing of the text is lost by the cut into segments:
    [content.split('\n\n')] joined again by ['\n\n'] is the text.  Every
    paragraph rendered into the body is [<p>seg</p>] for a segment [seg]
    that is a piece of the text, holds no blank-line boundary and has a
    character that is not whitespace. *)
Theorem body_paragraphs_from_text (content : pystr) :
  join nl2 (split nl2 content) = content
  ∧ ∀ para, In para (body_paragraphs content) →
      ∃ seg, para = p_tag seg
        ∧ occurs seg content
        ∧ ¬ occurs nl2 seg
        ∧ Exists (λ c, isspace c = false) seg.
Proof.
  destruct (blank_line_split_facts _ _ (split_blank_line_split content))
    as (_ & Hjoin & Hall).
  split; [done|]. intros para Hpara. unfold body_paragraphs in Hpara.
  apply in_map_iff in Hpara as (seg & <- & Hseg).
  apply filter_In in Hseg as [Hin Hkept].
  rewrite Forall_forall in Hall.
  destruct (Hall seg) as [Hno Hocc]; [by apply list_elem_of_In|].
  exists seg. repeat split; try done.
  apply forallb_false_Exists. rewrite para_kept_spec in Hkept.
  by apply negb_true_iff.
Qed.

Lemma forallb_join_nl2 (segs : list pystr) :
  Forall (λ seg, forallb isspace seg = true) segs →
  forallb isspace (join nl2 segs) = true.
Proof.
  induction 1 as [|seg segs Hseg Hsegs IH]; [done|].
  destruct segs as [|seg' segs']; [done|].
  change (join nl2 (seg :: seg' :: segs'))
    with (seg ++ nl2 ++ join nl2 (seg' :: segs')).
  by rewrite !forallb_app, Hseg, IH.
Qed.

Lemma filter_blank_segments (segs : list pystr) :
  Forall (λ seg, forallb isspace seg = true) segs →
  List.filter para_kept segs = [].
Proof.
  induction 1 as [|seg segs Hseg _ IH]; [done|].
  cbn [List.filter]. by rewrite para_kept_spec, Hseg.
Qed.

(** X18: the body of the page holds no paragraph exactly when the text is
    whitespace only (the empty text included); the chapter is then the
    head of the page followed at once by its tail. *)
Theorem body_empty_iff_blank (a : article) :
  (body_paragraphs (a_text a) = [] ↔ forallb isspace (a_text a) = true)
  ∧ (forallb isspace (a_text a) = true →
     html_content a = html_head a ++ html_tail).
Proof.
  destruct (blank_line_split_facts _ _ (split_blank_line_split (a_text a)))
    as (_ & Hjoin & Hall).
  assert (Hiff : body_paragraphs (a_text a) = []
                 ↔ forallb isspace (a_text a) = true).
  { unfold body_paragraphs. split.
    - intros Hnil. apply map_eq_nil in Hnil.
      rewrite <- Hjoin. apply forallb_join_nl2.
      apply Forall_forall. intros seg Hseg.
      destruct (forallb isspace seg) eqn:Hws; [done|]. exfalso.
      assert (Hin : In seg (List.filter para_kept (split nl2 (a_text a)))).
      { apply filter_In. split; [by apply list_elem_of_In|].
        by rewrite para_kept_spec, Hws. }
      by rewrite Hnil in Hin.
    - intros Hblank.
      assert (Hnone : List.filter para_kept (split nl2 (a_text a)) = []).
      { apply filter_blank_segments.
        eapply Forall_impl; [exact Hall|]. intros seg [_ Hocc].
        exact (occurs_forallb isspace seg _ Hocc Hblank). }
      by rewrite Hnone. }
  split; [done|]. intros Hblank. unfold html_content.
  by rewrite (proj2 Hiff Hblank).
Qed.

(** ** Start-up *)

Section StartupFacts.
Variable py_int : pystr → pyresult Z.

(** X20: in a configuration that loaded, [send_to_kindle] passes its guard
    exactly when [SMTP_USERNAME], [SMTP_PASSWORD] and [KINDLE_EMAIL] are all
    set to non-empty strings in the environment.  A relay host that is not
    set is [smtp.gmail.com]; one that is set is taken as it is, the empty
    string included. *)
Theorem load_config_guard (env : gmap pystr pystr) (cfg : config) (port : Z) :
  load_config py_int env = Ret (cfg, port) →
  (configured cfg = true ↔
   ∃ u p k,
     env !! py "SMTP_USERNAME" = Some u ∧ u ≠ []
     ∧ env !! py "SMTP_PASSWORD" = Some p ∧ p ≠ []
     ∧ env !! py "KINDLE_EMAIL" = Some k ∧ k ≠ [])
  ∧ (env !! py "SMTP_SERVER" = None → SMTP_SERVER cfg = py "smtp.gmail.com")
  ∧ (∀ s, env !! py "SMTP_SERVER" = Some s → SMTP_SERVER cfg = s).
Proof.
  unfold load_config.
  destruct (getenv_int py_int env (py "SMTP_PORT") 587) as [smtp_port|e]; [|done].
  destruct (getenv_int py_int env (py "SERVER_PORT") 5123) as [server_port|e];
    [|done].
  intros [= <- <-]. unfold configured. cbn [forallb SMTP_USERNAME
    SMTP_PASSWORD KINDLE_EMAIL SMTP_SERVER].
  change (env !! py "SMTP_USERNAME") with (os_getenv env (py "SMTP_USERNAME")).
  change (env !! py "SMTP_PASSWORD") with (os_getenv env (py "SMTP_PASSWORD")).
  change (env !! py "KINDLE_EMAIL") with (os_getenv env (py "KINDLE_EMAIL")).
  change (env !! py "SMTP_SERVER") with (os_getenv env (py "SMTP_SERVER")).
  split; [|split; [by intros -> | by intros s ->]].
  rewrite andb_true_r, !andb_true_iff.
  destruct (os_getenv env (py "SMTP_USERNAME")) as [u|];
    destruct (os_getenv env (py "SMTP_PASSWORD")) as [p|];
    destruct (os_getenv env (py "KINDLE_EMAIL")) as [k|]; cbn [opt_truthy];
    try (split; [by intros (? & ? & ?)
                | by intros (? & ? & ? & ? & ? & ? & ? & ? & ?)]).
  split.
  - intros (Hu & Hp & Hk). exists u, p, k.
    by destruct u, p, k.
  - intros (u' & p' & k' & [= <-] & Hu & [= <-] & Hp & [= <-] & Hk).
    by destruct u, p, k.
Qed.

(** X21: start-up and the port settings.  With neither [SMTP_PORT] nor
    [SERVER_PORT] set the configuration loads with ports 587 and 5123.  A
    port setting that [int] rejects makes the module fail to load with that
    exception, [SMTP_PORT] being read first. *)
Theorem load_config_ports (env : gmap pystr pystr) :
  (env !! py "SMTP_PORT" = None → env !! py "SERVER_PORT" = None →
   ∃ cfg, load_config py_int env = Ret (cfg, 5123%Z) ∧ SMTP_PORT cfg = 587%Z)
  ∧ (∀ s e, env !! py "SMTP_PORT" = Some s → py_int s = Raise e →
       load_config py_int env = Raise e)
  ∧ (∀ s t z e, env !! py "SMTP_PORT" = Some s → py_int s = Ret z →
       env !! py "SERVER_PORT" = Some t → py_int t = Raise e →
       load_config py_int env = Raise e).
Proof.
  unfold load_config, getenv_int, os_getenv. repeat split.
  - intros -> ->. by eexists.
  - intros s e -> ->. done.
  - intros s t z e -> -> -> ->. done.
Qed.

End StartupFacts.

Section Delivery.
Context `{RT : Runtime}.
Variable cfg : config.

(** X19: an iteration of the flush loop that completes adds exactly one
    result, and that result reports success exactly when the three stages
    succeeded for the item: the fetch of its URL, the packaging of the
    article fetched, and the mail. *)
Theorem flush_result_success_iff (item : pending_item)
    (results results' : list item_result) (st st' : state) :
  flush_item cfg item results st = (Ret results', st') →
  ∃ r, results' = results ++ [r]
    ∧ (item_success r = true ↔
       ∃ parsed w path st1 message st2,
         newspaper_article (url item) (world st) = (Ret parsed, w)
         ∧ create_epub (article_of (url item) parsed) (upd_world w st)
           = (Ret path, st1)
         ∧ send_to_kindle cfg path (a_title (article_of (url item) parsed)) st1
           = (Ret (SendOk message), st2)).
Proof. apply flush_item_success. Qed.

(** X22: with the configuration complete, [send_to_kindle] returns with the
    file it was given removed and every other file untouched, whether the
    mail went out, the relay failed or the file was not there. *)
Theorem send_to_kindle_cleans_up (epub_path title : pystr) (st : state) :
  configured cfg = true →
  ∃ r st', send_to_kindle cfg epub_path title st = (Ret r, st')
    ∧ files st' = delete epub_path (files st)
    ∧ files st' !! epub_path = None.
Proof.
  intros Hcfg.
  destruct (send_to_kindle_ret cfg epub_path title st) as (r & st' & Hrun & _).
  pose proof (send_to_kindle_files cfg epub_path title st Hcfg) as Hfiles.
  rewrite Hrun in Hfiles. cbn [snd] in Hfiles.
  exists r, st'. split; [done|]. split; [done|].
  rewrite Hfiles. apply lookup_delete_eq.
Qed.

(** X23: when the fetch succeeds and packaging raises [e], [send_article]
    answers 500 with the error "Failed to create EPUB: " followed by
    [str(e)]; no mail is attempted: the state is the one packaging left. *)
Theorem send_article_packaging_failure (u : pystr) (st st1 : state)
    (parsed : parsed_article) (w : World) (e : exn) :
  u ≠ [] →
  newspaper_article u (world st) = (Ret parsed, w) →
  create_epub (article_of u parsed) (upd_world w st) = (Raise e, st1) →
  send_article cfg (Some u) st
  = (Ret {| status := 500;
            resp_body :=
              BodyError (py "Failed to create EPUB: " ++ exn_str e) |},
     st1).
Proof.
  intros Hu Hfetch Hce. rewrite send_article_run.
  destruct u as [|c u]; [done|]. cbn [opt_truthy str_truthy negb].
  change (default [] (Some (c :: u))) with (c :: u). cbv zeta.
  by rewrite Hfetch, Hce.
Qed.

(** X24: [send_article] answers 200 exactly when the fetch, the packaging
    and the mail all succeed; the answer then carries the message of
    [send_to_kindle] and the title of the article fetched. *)
Theorem send_article_200_iff (u : pystr) (st : state) :
  u ≠ [] →
  ∃ resp st', send_article cfg (Some u) st = (Ret resp, st')
    ∧ (status resp = 200%nat ↔
       ∃ parsed w path st1 message,
         newspaper_article u (world st) = (Ret parsed, w)
         ∧ create_epub (article_of u parsed) (upd_world w st) = (Ret path, st1)
         ∧ send_to_kindle cfg path (a_title (article_of u parsed)) st1
           = (Ret (SendOk message), st')
         ∧ resp_body resp = BodySent message (a_title (article_of u parsed))).
Proof.
  intros Hu. rewrite send_article_run.
  destruct u as [|c u]; [done|]. cbn [opt_truthy str_truthy negb].
  change (default [] (Some (c :: u))) with (c :: u). cbv zeta.
  destruct (newspaper_article (c :: u) (world st)) as [[parsed|e] w].
  2:{ eexists _, _. split; [reflexivity|]. cbn [status]. split; [done|].
      by intros (? & ? & ? & ? & ? & [=] & _). }
  destruct (create_epub _ (upd_world w st)) as [[path|e] st1] eqn:Hce.
  2:{ eexists _, _. split; [reflexivity|]. cbn [status]. split; [done|].
      intros (? & ? & ? & ? & ? & [= <- <-] & Hce' & _).
      rewrite Hce in Hce'. discriminate. }
  destruct (send_to_kindle_ret cfg path (a_title (article_of (c :: u) parsed)) st1)
    as (r & st2 & Hsend & _).
  rewrite Hsend. destruct r as [message|error];
    eexists _, _; (split; [reflexivity|]); cbn [status resp_body]; split;
    try done.
  - intros _. by eexists _, _, _, _, _.
  - intros (? & ? & ? & ? & ? & [= <- <-] & Hce' & Hsend' & _).
    rewrite Hce in Hce'. injection Hce' as <- <-.
    rewrite Hsend in Hsend'. discriminate.
Qed.

End Delivery.

(** ** The further properties on concrete runs *)

Lemma handlers_require_url_witness :
  let st := start (RT := steady) [item_a] [] in
  send_article (RT := steady) cfg_ok (Some []) st = (Ret url_required, st)
  ∧ queue_article (RT := steady) None st = (Ret url_required, st).
Proof.
  cbv zeta. split.
  - apply (handlers_require_url (RT := steady) cfg_ok (Some [])). by right.
  - apply (handlers_require_url (RT := steady) cfg_ok None). by left.
Defined.

Lemma send_article_fetch_failure_witness :
  let st := start (RT := steady) [] [] in
  down_url ≠ []
  ∧ send_article (RT := steady) cfg_ok (Some down_url) st
    = (Ret {| status := 400;
              resp_body :=
                BodyArticle (ArticleErr (exn_str download_failed) down_url) |},
       upd_world (RT := steady) [Fetched down_url] st).
Proof.
  cbv zeta. split; [discriminate|].
  apply (send_article_fetch_failure (RT := steady)); [discriminate|reflexivity].
Defined.

Lemma queue_article_twice_witness :
  let st := start (RT := steady) [item_b] [] in
  let run1 := queue_article (RT := steady) (Some good_url) st in
  let run2 := queue_article (RT := steady) (Some good_url) run1.2 in
  ∃ resp1 resp2 item1 item2,
    run1 = (Ret resp1, run1.2) ∧ status resp1 = 200%nat
    ∧ run2 = (Ret resp2, run2.2) ∧ status resp2 = 200%nat
    ∧ url item1 = good_url ∧ url item2 = good_url
    ∧ get_queue run2.2
      = (Ret {| status := 200;
                resp_body := BodyQueue ([item_b] ++ [item1; item2]) (1 + 2) |},
         run2.2).
Proof.
  cbv zeta.
  set (st := start (RT := steady) [item_b] []).
  set (run1 := queue_article (RT := steady) (Some good_url) st).
  set (run2 := queue_article (RT := steady) (Some good_url) run1.2).
  set (msg := py "Added " ++ dq ++ py "Tide tables" ++ dq ++ py " to queue").
  assert (H1 : run1 = (Ret {| status := 200; resp_body := BodyQueued msg 2 |},
                       run1.2)) by (vm_compute; reflexivity).
  assert (H2 : run2 = (Ret {| status := 200; resp_body := BodyQueued msg 3 |},
                       run2.2)) by (vm_compute; reflexivity).
  destruct (queue_article_twice (RT := steady) good_url st _ _ _ _
              H1 eq_refl H2 eq_refl) as (item1 & item2 & Hu1 & Hu2 & Hget).
  eexists _, _, item1, item2. by repeat split.
Defined.


Lemma send_to_kindle_failures_witness :
  configured cfg_ok = true
  ∧ ∃ error,
      send_to_kindle (RT := steady) cfg_ok packaged_path (py "Tide tables")
        (start (RT := steady) [] [])
      = (Ret (SendErr error), start (RT := steady) [] []).
Proof.
  split; [reflexivity|].
  apply (send_to_kindle_failures (RT := steady) cfg_ok); reflexivity.
Defined.

Lemma extract_article_title_default_witness :
  let untitled :=
    {| p_title := []; p_authors := []; p_publish_date := None;
       p_text := py "Text."; p_html := []; p_top_image := [] |} in
  let RT := scripted (λ log u, Ret untitled) (λ path, None) (λ msg, None) in
  ∃ a, extract_article (RT := RT) good_url (start (RT := RT) [] [])
       = (Ret (ArticleOk a),
          upd_world (RT := RT) [Fetched good_url] (start (RT := RT) [] []))
    ∧ a_title a = py "Untitled Article" ∧ a_url a = good_url.
Proof.
  cbv zeta.
  set (untitled := {| p_title := []; p_authors := []; p_publish_date := None;
                      p_text := py "Text."; p_html := []; p_top_image := [] |}).
  set (RT := scripted (λ log u, Ret untitled) (λ path, None) (λ msg, None)).
  destruct (extract_article_title_default (RT := RT) good_url
              (start (RT := RT) [] []) untitled [Fetched good_url] eq_refl)
    as (a & Hrun & _ & _ & Hdefault & Hurl & _).
  exists a. split; [exact Hrun|]. split; [by apply Hdefault | exact Hurl].
Defined.

Lemma create_epub_file_name_witness :
  let run := create_epub (RT := steady) tide (start (RT := steady) [] []) in
  isalnum (Runtime := steady) slash = false
  ∧ run.1 = Ret (py "/tmp/tmp/Tide tables.epub")
  ∧ basename (py "/tmp/tmp/Tide tables.epub") = py "Tide tables.epub"
  ∧ att_filename
      (make_message cfg_ok (py "/tmp/tmp/Tide tables.epub") (py "Tide tables")
         packaged_book)
    = py "Tide tables.epub".
Proof.
  cbv zeta.
  set (st := start (RT := steady) [] []).
  assert (Hrun : create_epub (RT := steady) tide st
                 = (Ret (py "/tmp/tmp/Tide tables.epub"),
                    (create_epub (RT := steady) tide st).2))
    by (vm_compute; reflexivity).
  destruct (create_epub_file_name (RT := steady) cfg_ok tide st _ _
              (py "Tide tables") packaged_book eq_refl Hrun)
    as (Hbase & _ & Hatt & _).
  split; [reflexivity|]. split; [by rewrite Hrun|].
  split; [exact Hbase | by rewrite Hatt, Hbase].
Defined.

Lemma send_queue_unconfigured_keeps_queue_witness :
  let st := start (RT := steady) [item_a; item_b] [] in
  configured cfg_unset = false
  ∧ article_queue (send_queue (RT := steady) cfg_unset st).2 = [item_a; item_b]
  ∧ ∃ resp results,
      (send_queue (RT := steady) cfg_unset st).1 = Ret resp
      ∧ resp_body resp = BodyFlushed results 2
      ∧ Forall (λ x, item_success x = false) results.
Proof.
  cbv zeta.
  set (st := start (RT := steady) [item_a; item_b] []).
  destruct (send_queue (RT := steady) cfg_unset st) as [r st'] eqn:Hrun.
  destruct (send_queue_unconfigured_keeps_queue (RT := steady) cfg_unset st st' r
              eq_refl ltac:(discriminate) Hrun) as [Hq Hresp].
  split; [reflexivity|]. split; [exact Hq|].
  assert (Hret : ∃ resp, r = Ret resp).
  { assert (Hr : r = (send_queue (RT := steady) cfg_unset st).1)
      by (by rewrite Hrun).
    rewrite Hr. vm_compute. by eexists. }
  destruct Hret as [resp ->].
  destruct (Hresp resp eq_refl) as (_ & results & Hbody & _ & Hall).
  by exists resp, results.
Defined.

Lemma filename_stem_of_safe_title_witness :
  filename_stem (RT := steady) (py "Tide tables") = py "Tide tables"
  ∧ epub_filename (RT := steady) (py "Tide tables") = py "Tide tables.epub".
Proof.
  apply (filename_stem_of_safe_title (H := steady) (py "Tide tables")).
  - apply Forall_forall. intros c Hc. apply title_char_kept_spec.
    revert c Hc. apply Forall_forall. vm_compute. repeat constructor.
  - intros c [= <-]. reflexivity.
  - vm_compute. lia.
Defined.

Lemma load_config_guard_witness :
  ∃ cfg, load_config Startup_scenario.ascii_int Startup_scenario.env_full
         = Ret (cfg, 5123%Z)
    ∧ SMTP_PORT cfg = 2525%Z
    ∧ configured cfg = true
    ∧ SMTP_SERVER cfg = py "smtp.gmail.com".
Proof.
  set (run := load_config Startup_scenario.ascii_int Startup_scenario.env_full).
  assert (Hrun : ∃ cfg, run = Ret (cfg, 5123%Z) ∧ SMTP_PORT cfg = 2525%Z).
  { vm_compute. eexists. split; reflexivity. }
  destruct Hrun as (cfg & Hrun & Hport).
  destruct (load_config_guard _ _ cfg _ Hrun) as (Hguard & Hhost & _).
  exists cfg. split; [exact Hrun|]. split; [exact Hport|]. split.
  - apply Hguard. eexists _, _, _.
    repeat split; try (vm_compute; reflexivity); discriminate.
  - apply Hhost. vm_compute. reflexivity.
Defined.

Lemma flush_result_success_iff_witness :
  let st := start (RT := steady) [item_a] [] in
  let run := flush_item (RT := steady) cfg_ok item_a [] st in
  ∃ r, run.1 = Ret ([] ++ [r]) ∧ item_success r = true.
Proof.
  cbv zeta.
  set (st := start (RT := steady) [item_a] []).
  assert (Hrun : flush_item (RT := steady) cfg_ok item_a [] st
                 = (Ret [ItemSent (py "Tide tables") true None],
                    (flush_item (RT := steady) cfg_ok item_a [] st).2))
    by (vm_compute; reflexivity).
  destruct (flush_result_success_iff (RT := steady) cfg_ok item_a [] _ st _ Hrun)
    as (r & Hr & _).
  exists r. rewrite Hrun. cbn [fst]. split; [by rewrite Hr|].
  cbn [app] in Hr. by injection Hr as <-.
Defined.

Lemma send_to_kindle_cleans_up_witness :
  configured cfg_ok = true
  ∧ ∃ r st',
      send_to_kindle (RT := steady) cfg_ok packaged_path (py "Tide tables")
        (with_packaged steady [])
      = (Ret r, st')
      ∧ files st' !! packaged_path = None.
Proof.
  split; [reflexivity|].
  destruct (send_to_kindle_cleans_up (RT := steady) cfg_ok packaged_path
              (py "Tide tables") (with_packaged steady []) eq_refl)
    as (r & st' & Hrun & _ & Hgone).
  by exists r, st'.
Defined.

Lemma send_article_packaging_failure_witness :
  let st := start (RT := full_disk) [] [] in
  good_url ≠ []
  ∧ (send_article (RT := full_disk) cfg_ok (Some good_url) st).1
    = Ret {| status := 500;
             resp_body :=
               BodyError
                 (py "Failed to create EPUB: "
                  ++ py "[Errno 28] No space left on device") |}.
Proof.
  cbv zeta. split; [discriminate|].
  set (st := start (RT := full_disk) [] []).
  rewrite (send_article_packaging_failure (RT := full_disk) cfg_ok good_url st
             (create_epub (RT := full_disk) (article_of good_url page)
                (upd_world (RT := full_disk) [Fetched good_url] st)).2
             page [Fetched good_url]
             (Exn (py "[Errno 28] No space left on device")));
    [reflexivity | discriminate | reflexivity | vm_compute; reflexivity].
Defined.

Lemma send_article_200_iff_witness :
  good_url ≠ []
  ∧ ∃ resp st',
      send_article (RT := steady) cfg_ok (Some good_url)
        (start (RT := steady) [] [])
      = (Ret resp, st')
      ∧ (status resp = 200%nat ↔ resp_body resp
           = BodySent (py "Sent " ++ dq ++ py "Tide tables" ++ dq
                       ++ py " to Kindle") (py "Tide tables")).
Proof.
  assert (Hne : good_url ≠ []) by discriminate. split; [exact Hne|].
  destruct (send_article_200_iff (RT := steady) cfg_ok good_url
              (start (RT := steady) [] []) Hne) as (resp & st' & Hrun & _).
  exists resp, st'. split; [exact Hrun|].
  assert (Hresp : (send_article (RT := steady) cfg_ok (Some good_url)
                     (start (RT := steady) [] [])).1 = Ret resp)
    by (by rewrite Hrun).
  vm_compute in Hresp. injection Hresp as <-. split; reflexivity.
Defined.

Lemma send_to_kindle_success_iff_witness :
  let run := send_to_kindle (RT := steady) cfg_ok packaged_path (py "Tide tables")
               (with_packaged steady []) in
  run.1 = Ret (SendOk (py "Sent " ++ dq ++ py "Tide tables" ++ dq ++ py " to Kindle"))
  ∧ article_queue run.2 = []
  ∧ configured cfg_ok = true.
Proof.
  cbv zeta.
  set (st := with_packaged steady []).
  set (r := SendOk (py "Sent " ++ dq ++ py "Tide tables" ++ dq ++ py " to Kindle")).
  assert (Hrun : send_to_kindle (RT := steady) cfg_ok packaged_path
                   (py "Tide tables") st
                 = (Ret r, (send_to_kindle (RT := steady) cfg_ok packaged_path
                              (py "Tide tables") st).2))
    by (vm_compute; reflexivity).
  destruct (send_to_kindle_success_iff (RT := steady) cfg_ok packaged_path
              (py "Tide tables") st _ r Hrun) as (Hq & Hiff & _).
  split; [by rewrite Hrun|]. split; [exact Hq|].
  destruct (proj1 Hiff eq_refl) as [Hcfg _]. exact Hcfg.
Defined.
